(** * Social-network graph builder: co-occurrence, mention graphs and ranking

    A shallow embedding of [graph_builder.py] (class
    [SocialNetworkGraphBuilder]) and of the string helpers it relies on.

    - A Python [str] is a [string], the UTF-8 bytes of its code points;
      [sorted] on two strings uses the lexicographic order [String.compare],
      which is the order of the code points.
    - A [defaultdict(int)] keyed by a 2-tuple of strings is an association
      list kept in insertion order, as Python dicts are.
    - A [networkx] graph is a node list in insertion order together with an
      insertion-ordered map from ordered node pairs to the [weight] attribute.
    - Scores are numbers (degrees are ints, the other centralities floats);
      Python orders them by numerical value, so a score is a rational.
    - The centralities that [networkx] computes numerically are taken from a
      record of library functions, and a call may raise. *)

From Stdlib Require Import List String Ascii ZArith QArith Bool Lia.
From Stdlib Require Import Permutation Sorted.
From Stdlib Require Floats Uint63 DecimalString.
Import ListNotations.

Local Open Scope string_scope.
Local Open Scope Z_scope.
Local Open Scope list_scope.

(** ** Nodes and ordered node pairs *)

Definition node := string.
Definition edge := (node * node)%type.

Definition edge_eqb (e1 e2 : edge) : bool :=
  String.eqb (fst e1) (fst e2) && String.eqb (snd e1) (snd e2).

(** [tuple(sorted([x, y]))]: the sort is stable, so the two strings are
    swapped only when the second is strictly smaller. *)
Definition sorted_pair (x y : string) : edge :=
  if String.ltb y x then (y, x) else (x, y).

(** [s.replace(old, new)] for a one-character [old]. *)
Fixpoint str_replace (old : ascii) (new : string) (s : string) : string :=
  match s with
  | EmptyString => EmptyString
  | String c r =>
      if Ascii.eqb c old then (new ++ str_replace old new r)%string
      else String c (str_replace old new r)
  end.

(** ** Insertion-ordered dictionaries keyed by a pair of strings *)

Module PyDict.

Definition t := list (edge * Z).

Definition empty : t := [].

Fixpoint get (d : t) (k : edge) : option Z :=
  match d with
  | [] => None
  | (k', v) :: r => if edge_eqb k' k then Some v else get r k
  end.

(** [d[k] = v]: the value is replaced in place when the key is there,
    and the key is appended otherwise. *)
Fixpoint set (d : t) (k : edge) (v : Z) : t :=
  match d with
  | [] => [(k, v)]
  | (k', v') :: r =>
      if edge_eqb k' k then (k', v) :: r else (k', v') :: set r k v
  end.

(** [d[k]] on a [defaultdict(int)]. *)
Definition get0 (d : t) (k : edge) : Z :=
  match get d k with Some v => v | None => 0 end.

(** [d[k] += 1] on a [defaultdict(int)]. *)
Definition incr (d : t) (k : edge) : t := set d k (get0 d k + 1).

Definition keys (d : t) : list edge := map fst d.

Definition items (d : t) : list (edge * Z) := d.

End PyDict.

(** ** networkx graphs *)

Record Graph := mkGraph {
  is_directed : bool;
  nodes : list node;
  adj : PyDict.t
}.

(** [nx.DiGraph()] *)
Definition DiGraph : Graph :=
  {| is_directed := true; nodes := []; adj := PyDict.empty |}.

Definition has_node (ns : list node) (n : node) : bool :=
  existsb (String.eqb n) ns.

Definition add_node (ns : list node) (n : node) : list node :=
  if has_node ns n then ns else ns ++ [n].

(** [DiGraph.add_edge(u, v, weight=w)]: both endpoints become nodes (first
    [u], then [v]) unless they already are, and the weight of the ordered
    pair is set. *)
Definition add_edge (g : Graph) (u v : node) (w : Z) : Graph :=
  {| is_directed := is_directed g;
     nodes := add_node (add_node (nodes g) u) v;
     adj := PyDict.set (adj g) (u, v) w |}.

Definition number_of_nodes (g : Graph) : nat := List.length (nodes g).
Definition number_of_edges (g : Graph) : nat := List.length (adj g).

Definition has_edge (g : Graph) (u v : node) : bool :=
  match PyDict.get (adj g) (u, v) with Some _ => true | None => false end.

(** The [weight] attribute of the edge, 0 when there is no such edge. *)
Definition weight (g : Graph) (u v : node) : Z := PyDict.get0 (adj g) (u, v).

Definition in_degree_of (g : Graph) (n : node) : Z :=
  Z.of_nat (List.length (filter (fun e => String.eqb (snd (fst e)) n) (adj g))).

Definition out_degree_of (g : Graph) (n : node) : Z :=
  Z.of_nat (List.length (filter (fun e => String.eqb (fst (fst e)) n) (adj g))).

(** A self-loop counts twice, in both kinds of graph. *)
Definition degree_of (g : Graph) (n : node) : Z :=
  in_degree_of g n + out_degree_of g n.

Definition in_degree (g : Graph) : list (node * Z) :=
  map (fun n => (n, in_degree_of g n)) (nodes g).
Definition out_degree (g : Graph) : list (node * Z) :=
  map (fun n => (n, out_degree_of g n)) (nodes g).
Definition degree (g : Graph) : list (node * Z) :=
  map (fun n => (n, degree_of g n)) (nodes g).

(** ** Documents and the builder *)

Record tweet := mkTweet {
  author_id : string;
  hashtags : list string;
  mentions : list string
}.

Record SocialNetworkGraphBuilder := mkBuilder {
  collection : list tweet;
  hashtag_graph : Graph;
  mention_graph : Graph;
  user_hashtag_graph : Graph
}.

(** [__init__], with the collection the MongoDB handle gives access to. *)
Definition init (coll : list tweet) : SocialNetworkGraphBuilder :=
  {| collection := coll;
     hashtag_graph := DiGraph;
     mention_graph := DiGraph;
     user_hashtag_graph := DiGraph |}.

Definition is_nil {A} (l : list A) : bool :=
  match l with [] => true | _ => false end.

(** [collection.find({field: {"$ne": []}})] *)
Definition find_ne_empty (field : tweet -> list string) (coll : list tweet)
  : list tweet :=
  filter (fun tw => negb (is_nil (field tw))) coll.

(** The pairs of the two nested loops over [i < j], in loop order. *)
Fixpoint pairs_of (hs : list string) : list edge :=
  match hs with
  | [] => []
  | x :: r => map (sorted_pair x) r ++ pairs_of r
  end.

Definition tweet_pairs (tw : tweet) : list edge :=
  if (2 <=? List.length (hashtags tw))%nat then pairs_of (hashtags tw) else [].

(** The counter [hashtag_pairs] after the loop over the tweets. *)
Definition hashtag_pairs (tweets : list tweet) : PyDict.t :=
  fold_left (fun d tw => fold_left PyDict.incr (tweet_pairs tw) d)
            tweets PyDict.empty.

Definition add_both (g : Graph) (it : edge * Z) : Graph :=
  let '((hashtag1, hashtag2), w) := it in
  add_edge (add_edge g hashtag1 hashtag2 w) hashtag2 hashtag1 w.

Definition build_hashtag_graph (self : SocialNetworkGraphBuilder)
  : SocialNetworkGraphBuilder * Graph :=
  let tweets := find_ne_empty hashtags (collection self) in
  let g := fold_left add_both (PyDict.items (hashtag_pairs tweets))
                     (hashtag_graph self) in
  ({| collection := collection self;
      hashtag_graph := g;
      mention_graph := mention_graph self;
      user_hashtag_graph := user_hashtag_graph self |}, g).

Definition at_sign : ascii := "@"%char.

Definition mention_clean (mention : string) : string :=
  str_replace at_sign "" mention.

Definition tweet_mention_edges (tw : tweet) : list edge :=
  map (fun mention => (author_id tw, mention_clean mention)) (mentions tw).

(** The counter [mention_edges] after the loop over the tweets. *)
Definition mention_edges (tweets : list tweet) : PyDict.t :=
  fold_left (fun d tw => fold_left PyDict.incr (tweet_mention_edges tw) d)
            tweets PyDict.empty.

Definition add_one (g : Graph) (it : edge * Z) : Graph :=
  let '((source, target), w) := it in add_edge g source target w.

Definition build_mention_graph (self : SocialNetworkGraphBuilder)
  : SocialNetworkGraphBuilder * Graph :=
  let tweets := find_ne_empty mentions (collection self) in
  let g := fold_left add_one (PyDict.items (mention_edges tweets))
                     (mention_graph self) in
  ({| collection := collection self;
      hashtag_graph := hashtag_graph self;
      mention_graph := g;
      user_hashtag_graph := user_hashtag_graph self |}, g).

(** The graphs a fresh builder returns for a document batch. *)
Definition hashtag_graph_of (docs : list tweet) : Graph :=
  snd (build_hashtag_graph (init docs)).
Definition mention_graph_of (docs : list tweet) : Graph :=
  snd (build_mention_graph (init docs)).

(** ** Library calls: results, exceptions, numerical centralities *)

Inductive exn := PowerIterationFailedConvergence (max_iter : nat).

Inductive result (A : Type) :=
| Return (a : A)
| Raise (e : exn).
Arguments Return {A} a.
Arguments Raise {A} e.

(** A score: an int or a float, ordered by its numerical value. *)
Abbreviation score := Q.

(** The [networkx] functions whose values come out of numerical or
    graph-search routines.  Each [*_centrality] gives its dict's [items()],
    in node order; [eigenvector_centrality g max_iter] raises
    [PowerIterationFailedConvergence] when the power iteration does not meet
    the tolerance within [max_iter] rounds. *)
Record Networkx := mkNetworkx {
  betweenness_centrality : Graph -> list (node * score);
  closeness_centrality : Graph -> list (node * score);
  eigenvector_centrality : Graph -> nat -> result (list (node * score));
  to_undirected : Graph -> Graph;
  is_connected : Graph -> bool;
  is_weakly_connected : Graph -> bool;
  average_clustering : Graph -> Q
}.

(** ** Ranking *)

Definition Qltb (x y : Q) : bool := negb (Qle_bool y x).

(** [x] goes behind every entry with a strictly larger score and in front
    of the rest. *)
Fixpoint insert_desc (x : node * score) (l : list (node * score))
  : list (node * score) :=
  match l with
  | [] => [x]
  | y :: r => if Qltb (snd x) (snd y) then y :: insert_desc x r else x :: l
  end.

(** [sorted(node_scores, key=lambda x: x[1], reverse=True)]: a stable sort,
    descending; entries with equal scores keep their order. *)
Definition sorted_reverse (node_scores : list (node * score))
  : list (node * score) :=
  fold_right insert_desc [] node_scores.

(** [l[:n]]: a negative [n] counts from the end. *)
Definition slice_to {A} (l : list A) (n : Z) : list A :=
  if n <? 0 then firstn (Z.to_nat (Z.of_nat (List.length l) + n)) l
  else firstn (Z.to_nat n) l.

(** Lines 165-167 of [get_top_nodes]: sort, then truncate. *)
Definition top_nodes (node_scores : list (node * score)) (top_n : Z)
  : list (node * score) :=
  slice_to (sorted_reverse node_scores) top_n.

Definition int_scores (l : list (node * Z)) : list (node * score) :=
  map (fun nd => (fst nd, inject_Z (snd nd))) l.

Definition get_top_nodes (nx : Networkx) (graph : Graph) (metric : string)
  (top_n : Z) : result (list (node * score)) :=
  if (number_of_nodes graph =? 0)%nat then Return []
  else if String.eqb metric "degree" then
    if is_directed graph
    then Return (top_nodes (int_scores (in_degree graph)) top_n)
    else Return (top_nodes (int_scores (degree graph)) top_n)
  else if String.eqb metric "betweenness" then
    Return (top_nodes (betweenness_centrality nx graph) top_n)
  else if String.eqb metric "closeness" then
    Return (top_nodes (closeness_centrality nx graph) top_n)
  else if String.eqb metric "eigenvector" then
    match eigenvector_centrality nx graph 1000 with
    | Return node_scores => Return (top_nodes node_scores top_n)
    | Raise e => Raise e
    end
  else Return [].

(** ** Metrics *)

Inductive pyval :=
| PyInt (z : Z)
| PyBool (b : bool)
| PyFloat (q : Q).

(** [nx.density] *)
Definition density (g : Graph) : pyval :=
  let n := Z.of_nat (number_of_nodes g) in
  let m := Z.of_nat (number_of_edges g) in
  if (m =? 0) || (n <=? 1) then PyInt 0
  else
    let d := Qdiv (inject_Z m) (inject_Z (n * (n - 1))) in
    PyFloat (if is_directed g then d else Qmult d (inject_Z 2)).

(** [sum] of a list of ints. *)
Definition sum_ints (l : list Z) : Z := fold_left Z.add l 0.

(** [max] of a list that is not empty. *)
Definition max_ints (l : list Z) : Z :=
  match l with
  | [] => 0
  | x :: r => fold_left Z.max r x
  end.

Definition true_div (a : Z) (b : nat) : Q :=
  Qdiv (inject_Z a) (inject_Z (Z.of_nat b)).

(** The dict [calculate_graph_metrics] returns, keys in insertion order. *)
Definition calculate_graph_metrics (nx : Networkx) (graph : Graph)
  (graph_name : string) : list (string * pyval) :=
  if (number_of_nodes graph =? 0)%nat then []
  else
    let metrics :=
      [ ("nodes", PyInt (Z.of_nat (number_of_nodes graph)));
        ("edges", PyInt (Z.of_nat (number_of_edges graph)));
        ("density", density graph);
        ("is_connected",
          PyBool (if negb (is_directed graph)
                  then is_connected nx (to_undirected nx graph)
                  else is_weakly_connected nx graph));
        ("average_clustering",
          PyFloat (average_clustering nx (to_undirected nx graph))) ] in
    if is_directed graph then
      let in_degrees := map snd (in_degree graph) in
      let out_degrees := map snd (out_degree graph) in
      metrics ++
      [ ("avg_in_degree",
          PyFloat (true_div (sum_ints in_degrees) (List.length in_degrees)));
        ("avg_out_degree",
          PyFloat (true_div (sum_ints out_degrees) (List.length out_degrees)));
        ("max_in_degree", PyInt (max_ints in_degrees));
        ("max_out_degree", PyInt (max_ints out_degrees)) ]
    else
      let degrees := map snd (degree graph) in
      metrics ++
      [ ("avg_degree", PyFloat (true_div (sum_ints degrees) (List.length degrees)));
        ("max_degree", PyInt (max_ints degrees)) ].

(** [metrics.get(key)] *)
Fixpoint metrics_get (m : list (string * pyval)) (key : string)
  : option pyval :=
  match m with
  | [] => None
  | (k, v) :: r => if String.eqb k key then Some v else metrics_get r key
  end.

(** ** The user-hashtag graph, the export and the drawing *)

Definition tweet_user_hashtag_edges (tw : tweet) : list edge :=
  map (fun hashtag => (author_id tw, hashtag)) (hashtags tw).

(** The counter [user_hashtag_edges] after the loop over the tweets. *)
Definition user_hashtag_edges (tweets : list tweet) : PyDict.t :=
  fold_left (fun d tw => fold_left PyDict.incr (tweet_user_hashtag_edges tw) d)
            tweets PyDict.empty.

(** [collection.find({})] gives every tweet. *)
Definition build_user_hashtag_graph (self : SocialNetworkGraphBuilder)
  : SocialNetworkGraphBuilder * Graph :=
  let tweets := collection self in
  let g := fold_left add_one (PyDict.items (user_hashtag_edges tweets))
                     (user_hashtag_graph self) in
  ({| collection := collection self;
      hashtag_graph := hashtag_graph self;
      mention_graph := mention_graph self;
      user_hashtag_graph := g |}, g).

Definition user_hashtag_graph_of (docs : list tweet) : Graph :=
  snd (build_user_hashtag_graph (init docs)).

(** The three graphs [main] builds from one collection. *)
Definition graphs_of (docs : list tweet) : list Graph :=
  [hashtag_graph_of docs; mention_graph_of docs; user_hashtag_graph_of docs].

(** [graph.edges()] of a [DiGraph]: source by source in node order, the
    edges of one source in the order in which they were first added. *)
Definition edges (g : Graph) : list (edge * Z) :=
  flat_map (fun u => filter (fun e => String.eqb (fst (fst e)) u) (adj g))
           (nodes g).

(** The dict [graph_data] that [save_graph_data] hands to [json.dump]: the
    node records (id, degree) and the edge records (source, target,
    weight). *)
Definition graph_data (g : Graph)
  : list (node * Z) * list (node * node * Z) :=
  (map (fun n => (n, degree_of g n)) (nodes g),
   map (fun e => (fst (fst e), snd (fst e), snd e)) (edges g)).

(** The nodes [visualize_graph] draws: nothing for the empty graph, the
    [max_nodes] nodes of largest degree when the graph has more nodes than
    that, every node otherwise. *)
Definition visualize_graph_top_nodes (g : Graph) (max_nodes : Z)
  : option (list node) :=
  if (number_of_nodes g =? 0)%nat then None
  else if max_nodes <? Z.of_nat (number_of_nodes g)
  then Some (map fst (slice_to (sorted_reverse (int_scores (degree g)))
                               max_nodes))
  else Some (nodes g).

(** ** The power iteration of [nx.eigenvector_centrality]

    [nx.eigenvector_centrality(G, max_iter)], as [get_top_nodes] calls it:
    no start vector, the tolerance 1.0e-6 and no weight, so that every edge
    counts 1.  The scores are binary64 floats and every operation rounds as
    Python's does; the norm is the square root of the sum of the squares
    and the error a sum from left to right, which [math.hypot] and the
    [sum] of newer Pythons round at most one place apart. *)

Definition float := PrimFloat.float.

Definition float_of_Z (z : Z) : float := PrimFloat.of_uint63 (Uint63.of_Z z).

Definition float_of_nat (n : nat) : float := float_of_Z (Z.of_nat n).

(** [tol=1.0e-6] *)
Definition tol : float := PrimFloat.div (float_of_Z 1) (float_of_Z 1000000).

(** A dict from the nodes to floats, in node order. *)
Definition fvec := list (node * float).

(** [x[n]] for a node [n] of the graph. *)
Fixpoint fget (x : fvec) (n : node) : float :=
  match x with
  | [] => float_of_Z 0
  | (k, v) :: r => if String.eqb k n then v else fget r n
  end.

(** [x[n] += d] *)
Fixpoint fadd (x : fvec) (n : node) (d : float) : fvec :=
  match x with
  | [] => []
  | (k, v) :: r =>
      if String.eqb k n then (k, PrimFloat.add v d) :: r
      else (k, v) :: fadd r n d
  end.

(** [nstart = {v: 1 for v in G}], divided by its sum. *)
Definition nstart (g : Graph) : fvec :=
  map (fun v => (v, PrimFloat.div (float_of_Z 1)
                      (float_of_nat (number_of_nodes g)))) (nodes g).

Definition hypot (vs : list float) : float :=
  PrimFloat.sqrt
    (fold_left (fun s v => PrimFloat.add s (PrimFloat.mul v v)) vs
               (float_of_Z 0)).

(** One round: [x = xlast.copy()], then [x[nbr] += xlast[n] * 1] for every
    node [n] and every successor [nbr], then the division by the norm
    ([norm or 1]). *)
Definition round (g : Graph) (xlast : fvec) : fvec :=
  let x :=
    fold_left
      (fun x e => fadd x (snd (fst e))
                    (PrimFloat.mul (fget xlast (fst (fst e))) (float_of_Z 1)))
      (edges g) xlast in
  let norm := hypot (map snd x) in
  let norm :=
    if PrimFloat.eqb norm (float_of_Z 0) then float_of_Z 1 else norm in
  map (fun kv => (fst kv, PrimFloat.div (snd kv) norm)) x.

(** [sum(abs(x[n] - xlast[n]) for n in x)] *)
Definition error (x xlast : fvec) : float :=
  fold_left
    (fun s kv =>
       PrimFloat.add s
         (PrimFloat.abs (PrimFloat.sub (snd kv) (fget xlast (fst kv)))))
    x (float_of_Z 0).

(** The test that ends the iteration: the error is below [nnodes * tol]. *)
Definition converged (g : Graph) (x xlast : fvec) : bool :=
  PrimFloat.ltb (error x xlast)
                (PrimFloat.mul (float_of_nat (number_of_nodes g)) tol).

(** [for _ in range(max_iter)]: the vector of the first round that meets
    the tolerance, or nothing when no round does. *)
Fixpoint power_iteration (g : Graph) (rounds : nat) (x : fvec)
  : option fvec :=
  match rounds with
  | O => None
  | S r =>
      let x' := round g x in
      if converged g x' x then Some x' else power_iteration g r x'
  end.

(** The number a finite float stands for; the scores of a round are finite. *)
Definition score_of_float (f : float) : score :=
  match FloatOps.Prim2SF f with
  | SpecFloat.S754_finite s m e =>
      let q := if 0 <=? e then inject_Z (Z.pos m * 2 ^ e)
               else Qmake (Z.pos m) (Pos.pow 2 (Z.to_pos (- e))) in
      if s then Qopp q else q
  | _ => 0%Q
  end.

(** [nx.eigenvector_centrality(graph, max_iter=max_iter).items()] for a
    graph with nodes: the scores, or [PowerIterationFailedConvergence]
    after the last round. *)
Definition nx_eigenvector_centrality (g : Graph) (max_iter : nat)
  : result (list (node * score)) :=
  match power_iteration g max_iter (nstart g) with
  | Some x => Return (map (fun kv => (fst kv, score_of_float (snd kv))) x)
  | None => Raise (PowerIterationFailedConvergence max_iter)
  end.

(** The library with this power iteration for its eigenvector centrality,
    the other functions being those of [nx]. *)
Definition with_power_iteration (nx : Networkx) : Networkx :=
  {| betweenness_centrality := betweenness_centrality nx;
     closeness_centrality := closeness_centrality nx;
     eigenvector_centrality := nx_eigenvector_centrality;
     to_undirected := to_undirected nx;
     is_connected := is_connected nx;
     is_weakly_connected := is_weakly_connected nx;
     average_clustering := average_clustering nx |}.

(** The vector after [k] rounds. *)
Definition rounds_from_start (g : Graph) (k : nat) : fvec :=
  Nat.iter k (round g) (nstart g).

(** The user with the number [i], and the documents in which each of the
    users 1 to [n - 1] mentions the next user. *)
Definition user (i : nat) : string :=
  ("u" ++ DecimalString.NilEmpty.string_of_uint (Nat.to_uint i))%string.

Definition mention_chain (n : nat) : list tweet :=
  map (fun i => mkTweet (user i) [] [("@" ++ user (S i))%string])
      (seq 1 (n - 1)).

(** ** Tag extraction *)

(** A tweet text is a sequence of Unicode code points.  The strings of a
    document are kept as the UTF-8 bytes of their code points: the order of
    two strings and the places of '#' and '@' are the same in both forms. *)
Definition codepoint := N.

Definition utf8_char (c : codepoint) : list ascii :=
  (if c <? 128 then [ascii_of_N c]
   else if c <? 2048 then
     [ascii_of_N (192 + c / 64); ascii_of_N (128 + c mod 64)]
   else if c <? 65536 then
     [ascii_of_N (224 + c / 4096); ascii_of_N (128 + (c / 64) mod 64);
      ascii_of_N (128 + c mod 64)]
   else
     [ascii_of_N (240 + (c / 262144) mod 8);
      ascii_of_N (128 + (c / 4096) mod 64);
      ascii_of_N (128 + (c / 64) mod 64); ascii_of_N (128 + c mod 64)])%N.

Fixpoint utf8 (t : list codepoint) : string :=
  match t with
  | [] => EmptyString
  | c :: r => (string_of_list_ascii (utf8_char c) ++ utf8 r)%string
  end.

(** [re.findall(tag + r'\w+', s)] as a scan over the code points from left
    to right.  [cur] holds the word characters read since the last [tag],
    if the scan is behind one; [is_word] is the character class [\w]. *)
Fixpoint findall_tag (is_word : codepoint -> bool) (tag : codepoint)
  (cur : option (list codepoint)) (s : list codepoint)
  : list (list codepoint) :=
  match s with
  | [] =>
      match cur with
      | Some (c :: w) => [tag :: c :: w]
      | _ => []
      end
  | c :: r =>
      let restart :=
        if (c =? tag)%N then findall_tag is_word tag (Some []) r
        else findall_tag is_word tag None r in
      match cur with
      | Some w =>
          if is_word c then findall_tag is_word tag (Some (w ++ [c])) r
          else match w with
               | [] => restart
               | _ => (tag :: w) :: restart
               end
      | None => restart
      end
  end.

Definition hash_sign : ascii := "#"%char.
Definition hash_point : codepoint := 35%N.
Definition at_point : codepoint := 64%N.

(** [extract_hashtags] and [extract_mentions]; [lower] is [str.lower] and
    [is_word] the class [\w], both over all of Unicode. *)
Definition extract_hashtags (lower : list codepoint -> list codepoint)
  (is_word : codepoint -> bool) (text : list codepoint) : list string :=
  map utf8 (findall_tag is_word hash_point None (lower text)).

Definition extract_mentions (lower : list codepoint -> list codepoint)
  (is_word : codepoint -> bool) (text : list codepoint) : list string :=
  map utf8 (findall_tag is_word at_point None (lower text)).

(** [\w] and [str.lower] on the ASCII code points, for texts that hold no
    other: every other code point is taken as no word character and left
    as it is. *)
Definition ascii_is_word (c : codepoint) : bool :=
  ((48 <=? c) && (c <=? 57) || (65 <=? c) && (c <=? 90)
   || (97 <=? c) && (c <=? 122) || (c =? 95))%N.

Definition ascii_lower (t : list codepoint) : list codepoint :=
  map (fun c => if ((65 <=? c) && (c <=? 90))%N then (c + 32)%N else c) t.

(** The code points of a string of ASCII characters. *)
Definition points (s : string) : list codepoint :=
  map N_of_ascii (list_ascii_of_string s).

(** The number of times the hashtag occurs in the documents of [author]. *)
Definition hashtag_uses (author hashtag : node) (docs : list tweet) : Z :=
  Z.of_nat (list_sum
    (map (fun tw => if String.eqb (author_id tw) author
                    then List.length (filter (String.eqb hashtag) (hashtags tw))
                    else 0%nat) docs)).

(** A word: a sequence of word characters that is not empty. *)
Definition is_handle (is_word : codepoint -> bool) (w : list codepoint)
  : Prop :=
  w <> [] /\ forall c, In c w -> is_word c = true.

(** ** Quantities the statements below are about *)

(** How often the key [k] occurs in a list of keys. *)
Definition count_edge (k : edge) (l : list edge) : Z :=
  Z.of_nat (List.length (filter (edge_eqb k) l)).

Definition mem (x : string) (l : list string) : bool :=
  existsb (String.eqb x) l.

(** The number of documents in which both [a] and [b] appear. *)
Definition docs_with_both (a b : node) (docs : list tweet) : Z :=
  Z.of_nat (List.length
    (filter (fun tw => mem a (hashtags tw) && mem b (hashtags tw)) docs)).

(** The number of position pairs [i < j] of one hashtag list whose two
    hashtags are [a] and [b] in either order. *)
Fixpoint position_pairs (a b : node) (hs : list string) : nat :=
  match hs with
  | [] => 0
  | x :: r =>
      List.length
        (filter (fun y => String.eqb x a && String.eqb y b
                          || String.eqb x b && String.eqb y a) r)
      + position_pairs a b r
  end.

(** The same, summed over all documents. *)
Definition pair_occurrences (a b : node) (docs : list tweet) : Z :=
  Z.of_nat (list_sum (map (fun tw => position_pairs a b (hashtags tw)) docs)).

(** The number of mention tokens of one document that name [target] once
    their '@' characters are removed. *)
Definition tokens_naming (target : node) (tw : tweet) : nat :=
  List.length
    (filter (fun mention => String.eqb (mention_clean mention) target)
            (mentions tw)).

(** The number of mention tokens naming [target], over all documents of
    [author]. *)
Definition mention_occurrences (author target : node) (docs : list tweet)
  : Z :=
  Z.of_nat (list_sum
    (map (fun tw => if String.eqb (author_id tw) author
                    then tokens_naming target tw else 0%nat) docs)).

(** The number of documents of [author] with a mention token naming
    [target]. *)
Definition docs_mentioning (author target : node) (docs : list tweet) : Z :=
  Z.of_nat (List.length
    (filter (fun tw => String.eqb (author_id tw) author
                       && mem target (map mention_clean (mentions tw))) docs)).

Definition contains_char (c : ascii) (s : string) : Prop :=
  In c (list_ascii_of_string s).

(** The entries of [l] whose score ties with [s], in the order of [l]. *)
Definition tied (s : score) (l : list (node * score)) : list (node * score) :=
  filter (fun x => Qeq_bool (snd x) s) l.

(** No entry is followed, anywhere later, by one with a larger score. *)
Definition descending (l : list (node * score)) : Prop :=
  StronglySorted (fun x y => Qle (snd y) (snd x)) l.

Definition is_prefix {A} (p l : list A) : Prop := exists r, l = p ++ r.

Definition known_metric (metric : string) : bool :=
  String.eqb metric "degree" || String.eqb metric "betweenness"
  || String.eqb metric "closeness" || String.eqb metric "eigenvector".

(** A graph obtained from [nx.DiGraph()] by calls of [add_edge]. *)
Inductive built : Graph -> Prop :=
| built_DiGraph : built DiGraph
| built_add_edge g u v w : built g -> built (add_edge g u v w).

(** What such a graph keeps: no node and no ordered pair is held twice,
    the endpoints of every edge are nodes, and every node is an endpoint. *)
Definition graph_inv (g : Graph) : Prop :=
  is_directed g = true
  /\ NoDup (nodes g)
  /\ NoDup (PyDict.keys (adj g))
  /\ (forall u v, In (u, v) (PyDict.keys (adj g)) ->
                  In u (nodes g) /\ In v (nodes g))
  /\ (forall n, In n (nodes g) ->
                exists m, In (n, m) (PyDict.keys (adj g))
                          \/ In (m, n) (PyDict.keys (adj g))).

(** ** Sample inputs *)

(** A document of the user u that carries hashtags only. *)
Definition doc (hs : list string) : tweet :=
  {| author_id := "u"; hashtags := hs; mentions := [] |}.

(** A run of the library in which every betweenness and closeness score is
    0 and the power iteration never meets the tolerance. *)
Definition nx_unconverged : Networkx :=
  {| betweenness_centrality := fun g => map (fun n => (n, 0%Q)) (nodes g);
     closeness_centrality := fun g => map (fun n => (n, 0%Q)) (nodes g);
     eigenvector_centrality :=
       fun _ max_iter => Raise (PowerIterationFailedConvergence max_iter);
     to_undirected := fun g => g;
     is_connected := fun _ => true;
     is_weakly_connected := fun _ => true;
     average_clustering := fun _ => 0%Q |}.

(** The three documents of the mention scenario. *)
Definition mention_docs : list tweet :=
  [ mkTweet "u1" [] ["@u2"]; mkTweet "u1" [] ["@u2"]; mkTweet "u2" [] ["@u1"] ].

(** * Properties *)

(** ** Keys and the string order *)

Lemma edge_eqb_spec (e1 e2 : edge) : reflect (e1 = e2) (edge_eqb e1 e2).
Proof.
  destruct e1 as [a b], e2 as [c d]. unfold edge_eqb. simpl.
  destruct (String.eqb_spec a c), (String.eqb_spec b d); simpl;
    constructor; congruence.
Qed.

Lemma edge_eqb_refl (e : edge) : edge_eqb e e = true.
Proof. destruct (edge_eqb_spec e e); congruence. Qed.

Lemma compare_refl (x : string) : String.compare x x = Eq.
Proof.
  pose proof (String.compare_antisym x x) as H.
  destruct (String.compare x x); simpl in H; congruence.
Qed.

Lemma ltb_irrefl (x : string) : String.ltb x x = false.
Proof. unfold String.ltb. now rewrite compare_refl. Qed.

Lemma ltb_asym (x y : string) : String.ltb x y = true -> String.ltb y x = false.
Proof.
  unfold String.ltb. rewrite (String.compare_antisym x y).
  destruct (String.compare y x); simpl; congruence.
Qed.

Lemma ltb_total (x y : string) :
  String.ltb x y = false -> String.ltb y x = false -> x = y.
Proof.
  unfold String.ltb. rewrite (String.compare_antisym x y).
  destruct (String.compare y x) eqn:E; simpl; try congruence.
  intros _ _. symmetry. now apply String.compare_eq_iff.
Qed.

Lemma sorted_pair_comm (x y : string) : sorted_pair x y = sorted_pair y x.
Proof.
  unfold sorted_pair.
  destruct (String.ltb y x) eqn:E1, (String.ltb x y) eqn:E2; auto.
  - apply ltb_asym in E1. congruence.
  - now rewrite (ltb_total _ _ E2 E1).
Qed.

Lemma sorted_pair_canonical (x y : string) :
  String.ltb (snd (sorted_pair x y)) (fst (sorted_pair x y)) = false.
Proof.
  unfold sorted_pair. destruct (String.ltb y x) eqn:E; simpl; auto.
  now apply ltb_asym.
Qed.

Lemma sorted_pair_fix (a b : string) :
  String.ltb b a = false -> sorted_pair a b = (a, b).
Proof. unfold sorted_pair. now intros ->. Qed.

Lemma sorted_pair_cases (x y : string) :
  sorted_pair x y = (x, y) \/ sorted_pair x y = (y, x).
Proof. unfold sorted_pair. destruct (String.ltb y x); auto. Qed.

(** ** Dictionaries *)

Lemma get_set (d : PyDict.t) (k k' : edge) (v : Z) :
  PyDict.get (PyDict.set d k v) k'
  = if edge_eqb k k' then Some v else PyDict.get d k'.
Proof.
  induction d as [|[k0 v0] r IH]; simpl.
  - reflexivity.
  - destruct (edge_eqb_spec k0 k) as [->|Hne]; simpl.
    + destruct (edge_eqb k k'); reflexivity.
    + destruct (edge_eqb_spec k0 k') as [->|Hne']; [|exact IH].
      destruct (edge_eqb_spec k k'); congruence.
Qed.

Lemma get_in_keys (d : PyDict.t) (k : edge) :
  In k (PyDict.keys d) <-> PyDict.get d k <> None.
Proof.
  induction d as [|[k0 v0] r IH]; simpl.
  - intuition congruence.
  - destruct (edge_eqb_spec k0 k) as [->|Hne].
    + intuition congruence.
    + rewrite <- IH. intuition congruence.
Qed.

Lemma keys_set (d : PyDict.t) (k : edge) (v : Z) :
  PyDict.keys (PyDict.set d k v)
  = match PyDict.get d k with
    | Some _ => PyDict.keys d
    | None => PyDict.keys d ++ [k]
    end.
Proof.
  induction d as [|[k0 v0] r IH]; simpl; auto.
  destruct (edge_eqb_spec k0 k) as [->|Hne]; simpl; auto.
  rewrite IH. destruct (PyDict.get r k); reflexivity.
Qed.

Lemma NoDup_snoc {A} (l : list A) (x : A) :
  NoDup l -> ~ In x l -> NoDup (l ++ [x]).
Proof.
  intros Hl Hx. apply NoDup_rev in Hl.
  rewrite <- (rev_involutive (l ++ [x])). apply NoDup_rev.
  rewrite rev_app_distr. simpl. constructor; auto.
  now rewrite <- in_rev.
Qed.

Lemma NoDup_keys_set (d : PyDict.t) (k : edge) (v : Z) :
  NoDup (PyDict.keys d) -> NoDup (PyDict.keys (PyDict.set d k v)).
Proof.
  intros H. rewrite keys_set.
  destruct (PyDict.get d k) eqn:E; auto.
  apply NoDup_snoc; auto. rewrite get_in_keys. congruence.
Qed.

Lemma count_edge_cons (k x : edge) (l : list edge) :
  count_edge k (x :: l) = (if edge_eqb k x then 1 else 0) + count_edge k l.
Proof.
  unfold count_edge. cbn [filter].
  destruct (edge_eqb k x); cbn [List.length]; lia.
Qed.

Lemma count_edge_app (k : edge) (l1 l2 : list edge) :
  count_edge k (l1 ++ l2) = count_edge k l1 + count_edge k l2.
Proof.
  unfold count_edge. rewrite filter_app, length_app. lia.
Qed.

Lemma count_edge_nonneg (k : edge) (l : list edge) : 0 <= count_edge k l.
Proof. unfold count_edge. lia. Qed.

Lemma edge_eqb_sym (a b : edge) : edge_eqb a b = edge_eqb b a.
Proof.
  destruct (edge_eqb_spec a b), (edge_eqb_spec b a); congruence.
Qed.

(** What a counter holds after [d[k] += 1] for every [k] of [l]. *)
Lemma get_fold_incr (l : list edge) (d : PyDict.t) (k : edge) :
  PyDict.get (fold_left PyDict.incr l d) k
  = match PyDict.get d k with
    | Some v => Some (v + count_edge k l)
    | None => if count_edge k l =? 0 then None else Some (count_edge k l)
    end.
Proof.
  revert d. induction l as [|x r IH]; intros d.
  - simpl. unfold count_edge. simpl. destruct (PyDict.get d k); f_equal; lia.
  - simpl. rewrite IH. unfold PyDict.incr. rewrite get_set.
    rewrite count_edge_cons, (edge_eqb_sym k x).
    pose proof (count_edge_nonneg k r).
    destruct (edge_eqb_spec x k) as [->|Hne].
    + unfold PyDict.get0. destruct (PyDict.get d k).
      * f_equal. lia.
      * destruct (1 + count_edge k r =? 0) eqn:E; [lia|]. f_equal.
    + destruct (PyDict.get d k); auto.
Qed.

Lemma NoDup_keys_fold_incr (l : list edge) (d : PyDict.t) :
  NoDup (PyDict.keys d) -> NoDup (PyDict.keys (fold_left PyDict.incr l d)).
Proof.
  revert d. induction l as [|x r IH]; intros d H; simpl; auto.
  apply IH. now apply NoDup_keys_set.
Qed.

Lemma counter_flat (f : tweet -> list edge) (tweets : list tweet)
  (d : PyDict.t) :
  fold_left (fun d tw => fold_left PyDict.incr (f tw) d) tweets d
  = fold_left PyDict.incr (flat_map f tweets) d.
Proof.
  revert d. induction tweets as [|tw r IH]; intros d; simpl; auto.
  rewrite fold_left_app. apply IH.
Qed.

Lemma count_edge_in (k : edge) (l : list edge) :
  count_edge k l <> 0 -> In k l.
Proof.
  induction l as [|x r IH].
  - unfold count_edge. simpl. lia.
  - rewrite count_edge_cons. destruct (edge_eqb_spec k x) as [->|Hne].
    + intros _. now left.
    + intros H. right. apply IH. lia.
Qed.

(** A counter started empty holds, for each key, how often it was counted,
    and holds no key that was never counted. *)
Lemma get_counter (l : list edge) (k : edge) :
  PyDict.get (fold_left PyDict.incr l PyDict.empty) k
  = if count_edge k l =? 0 then None else Some (count_edge k l).
Proof. now rewrite get_fold_incr. Qed.

Lemma get0_counter (l : list edge) (k : edge) :
  PyDict.get0 (fold_left PyDict.incr l PyDict.empty) k = count_edge k l.
Proof.
  unfold PyDict.get0. rewrite get_counter.
  destruct (count_edge k l =? 0) eqn:E; lia.
Qed.

Lemma keys_counter (l : list edge) (k : edge) :
  In k (PyDict.keys (fold_left PyDict.incr l PyDict.empty)) -> In k l.
Proof.
  rewrite get_in_keys, get_counter. intros H. apply count_edge_in.
  destruct (count_edge k l =? 0) eqn:E; [congruence|lia].
Qed.

Lemma flat_map_find_ne_empty (field : tweet -> list string)
  (f : tweet -> list edge) (docs : list tweet) :
  (forall tw, field tw = [] -> f tw = []) ->
  flat_map f (find_ne_empty field docs) = flat_map f docs.
Proof.
  intros Hf. induction docs as [|tw r IH]; simpl; auto.
  destruct (field tw) eqn:E; simpl.
  - rewrite (Hf tw E). exact IH.
  - now rewrite IH.
Qed.

(** ** The co-occurrence graph *)

Lemma tweet_pairs_eq (tw : tweet) : tweet_pairs tw = pairs_of (hashtags tw).
Proof.
  unfold tweet_pairs. destruct (hashtags tw) as [|x [|y r]]; reflexivity.
Qed.

Lemma hashtag_pairs_flat (docs : list tweet) :
  hashtag_pairs (find_ne_empty hashtags docs)
  = fold_left PyDict.incr
      (flat_map (fun tw => pairs_of (hashtags tw)) docs) PyDict.empty.
Proof.
  unfold hashtag_pairs. rewrite counter_flat.
  rewrite flat_map_find_ne_empty.
  - f_equal. apply flat_map_ext. intros tw. apply tweet_pairs_eq.
  - intros tw H. rewrite tweet_pairs_eq, H. reflexivity.
Qed.

Lemma in_pairs_of (k : edge) (l : list string) :
  In k (pairs_of l) -> exists x y, k = sorted_pair x y /\ In x l /\ In y l.
Proof.
  induction l as [|x r IH]; simpl; [tauto|].
  rewrite in_app_iff, in_map_iff. intros [[y [<- Hy]]|H].
  - exists x, y. auto.
  - destruct (IH H) as (a & b & -> & Ha & Hb). exists a, b. auto.
Qed.

Lemma hashtag_pairs_canonical (docs : list tweet) (k : edge) :
  In k (PyDict.keys (hashtag_pairs (find_ne_empty hashtags docs))) ->
  String.ltb (snd k) (fst k) = false.
Proof.
  rewrite hashtag_pairs_flat. intros H. apply keys_counter in H.
  apply in_flat_map in H. destruct H as (tw & _ & H).
  apply in_pairs_of in H. destruct H as (x & y & -> & _).
  apply sorted_pair_canonical.
Qed.

Lemma hashtag_pairs_NoDup (tweets : list tweet) :
  NoDup (PyDict.keys (hashtag_pairs tweets)).
Proof.
  unfold hashtag_pairs. rewrite counter_flat.
  apply NoDup_keys_fold_incr. constructor.
Qed.

Lemma get_adj_add_both (g : Graph) (h1 h2 : node) (w : Z) (e : edge) :
  PyDict.get (adj (add_both g ((h1, h2), w))) e
  = if edge_eqb (h2, h1) e then Some w
    else if edge_eqb (h1, h2) e then Some w
    else PyDict.get (adj g) e.
Proof. simpl. now rewrite !get_set. Qed.

(** The edge between [a] and [b], in either direction, carries what the
    counter holds under the sorted pair. *)
Lemma get_fold_add_both (items : list (edge * Z)) (g : Graph) (a b : node) :
  NoDup (PyDict.keys items) ->
  (forall k, In k (PyDict.keys items) -> String.ltb (snd k) (fst k) = false) ->
  PyDict.get (adj (fold_left add_both items g)) (a, b)
  = match PyDict.get items (sorted_pair a b) with
    | Some w => Some w
    | None => PyDict.get (adj g) (a, b)
    end.
Proof.
  revert g. induction items as [|[[h1 h2] w] r IH]; intros g Hnd Hcan.
  - reflexivity.
  - cbn [fold_left]. inversion Hnd as [|? ? Hnotin Hnd']; subst.
    rewrite IH; auto; [|intros k Hk; apply Hcan; now right].
    cbn [PyDict.get].
    assert (Hh : String.ltb h2 h1 = false) by (apply (Hcan (h1, h2)); now left).
    rewrite get_adj_add_both.
    destruct (edge_eqb_spec (h1, h2) (sorted_pair a b)) as [E|NE].
    + rewrite <- E.
      destruct (PyDict.get r (h1, h2)) eqn:G.
      * exfalso. apply Hnotin. apply get_in_keys. simpl in *. congruence.
      * destruct (sorted_pair_cases a b) as [C|C]; rewrite C in E;
          inversion E; subst.
        -- rewrite (edge_eqb_refl (a, b)).
           destruct (edge_eqb (b, a) (a, b)); reflexivity.
        -- now rewrite (edge_eqb_refl (a, b)).
    + destruct (PyDict.get r (sorted_pair a b)); auto.
      destruct (edge_eqb_spec (h2, h1) (a, b)) as [E1|_].
      * exfalso. inversion E1; subst. apply NE.
        rewrite sorted_pair_comm. symmetry. now apply sorted_pair_fix.
      * destruct (edge_eqb_spec (h1, h2) (a, b)) as [E2|_]; auto.
        exfalso. inversion E2; subst. apply NE.
        symmetry. now apply sorted_pair_fix.
Qed.

Lemma hashtag_graph_get (docs : list tweet) (a b : node) :
  PyDict.get (adj (hashtag_graph_of docs)) (a, b)
  = PyDict.get (hashtag_pairs (find_ne_empty hashtags docs)) (sorted_pair a b).
Proof.
  unfold hashtag_graph_of, build_hashtag_graph. cbn [snd init collection hashtag_graph].
  unfold PyDict.items. rewrite get_fold_add_both.
  - now destruct (PyDict.get _ (sorted_pair a b)).
  - apply hashtag_pairs_NoDup.
  - apply hashtag_pairs_canonical.
Qed.

Lemma sorted_pair_eq_iff (x y a b : string) :
  sorted_pair x y = sorted_pair a b <-> (x = a /\ y = b) \/ (x = b /\ y = a).
Proof.
  split.
  - intros H.
    destruct (sorted_pair_cases x y) as [C|C], (sorted_pair_cases a b) as [D|D];
      rewrite C, D in H; inversion H; auto.
  - intros [[-> ->]|[-> ->]]; auto using sorted_pair_comm.
Qed.

Lemma mem_In (c : string) (l : list string) : mem c l = true <-> In c l.
Proof.
  unfold mem. rewrite existsb_exists. split.
  - intros (x & Hx & E). apply String.eqb_eq in E. now subst.
  - intros H. exists c. split; auto. apply String.eqb_refl.
Qed.

Lemma count_mem_NoDup (c : string) (l : list string) :
  NoDup l ->
  Z.of_nat (List.length (filter (String.eqb c) l)) = if mem c l then 1 else 0.
Proof.
  induction 1 as [|x r Hx Hr IH]; [reflexivity|].
  cbn [filter mem existsb]. fold (mem c r).
  destruct (String.eqb_spec c x) as [->|Hne]; cbn [orb List.length].
  - destruct (mem x r) eqn:M; [apply mem_In in M; contradiction|]. lia.
  - exact IH.
Qed.

Lemma count_map_sorted_pair (a b x : string) (r : list string) :
  a <> b ->
  count_edge (sorted_pair a b) (map (sorted_pair x) r)
  = if String.eqb x a then Z.of_nat (List.length (filter (String.eqb b) r))
    else if String.eqb x b then Z.of_nat (List.length (filter (String.eqb a) r))
    else 0.
Proof.
  intros Hab. induction r as [|y r IH].
  - unfold count_edge. simpl. now destruct (String.eqb x a), (String.eqb x b).
  - cbn [map]. rewrite count_edge_cons, IH. cbn [filter].
    destruct (edge_eqb_spec (sorted_pair a b) (sorted_pair x y)) as [E|NE].
    + symmetry in E. apply sorted_pair_eq_iff in E.
      destruct E as [[-> ->]|[-> ->]].
      * rewrite !String.eqb_refl. cbn [List.length]. lia.
      * rewrite !String.eqb_refl.
        destruct (String.eqb_spec b a); [congruence|]. cbn [List.length]. lia.
    + destruct (String.eqb_spec x a) as [->|Hxa].
      * destruct (String.eqb_spec b y) as [->|_]; [|lia].
        exfalso. apply NE. reflexivity.
      * destruct (String.eqb_spec x b) as [->|Hxb]; [|lia].
        destruct (String.eqb_spec a y) as [->|_]; [|lia].
        exfalso. apply NE. apply sorted_pair_comm.
Qed.

(** In a hashtag list without repetition the two nested loops meet the
    pair [a], [b] once when both are there, and never otherwise. *)
Lemma count_pairs_of (a b : string) (l : list string) :
  a <> b -> NoDup l ->
  count_edge (sorted_pair a b) (pairs_of l)
  = if mem a l && mem b l then 1 else 0.
Proof.
  intros Hab. induction 1 as [|x r Hx Hr IH].
  - reflexivity.
  - cbn [pairs_of]. rewrite count_edge_app, count_map_sorted_pair, IH by auto.
    rewrite !count_mem_NoDup by auto.
    cbn [mem existsb]. fold (mem a r). fold (mem b r).
    rewrite (String.eqb_sym a x), (String.eqb_sym b x).
    destruct (String.eqb_spec x a) as [->|Hxa].
    + destruct (String.eqb_spec a b); [congruence|].
      destruct (mem a r) eqn:M; [apply mem_In in M; contradiction|].
      cbn. destruct (mem b r); reflexivity.
    + destruct (String.eqb_spec x b) as [->|Hxb].
      * destruct (mem b r) eqn:M; [apply mem_In in M; contradiction|].
        cbn. destruct (mem a r); reflexivity.
      * cbn. reflexivity.
Qed.

Lemma edge_eqb_sorted_pair (a b x y : string) :
  edge_eqb (sorted_pair a b) (sorted_pair x y)
  = (String.eqb x a && String.eqb y b || String.eqb x b && String.eqb y a).
Proof.
  destruct (edge_eqb_spec (sorted_pair a b) (sorted_pair x y)) as [E|NE].
  - symmetry in E. apply sorted_pair_eq_iff in E.
    destruct E as [[-> ->]|[-> ->]]; rewrite !String.eqb_refl; cbn;
      auto using orb_true_r.
  - destruct (_ || _) eqn:R; auto.
    exfalso. apply NE.
    apply orb_true_iff in R. destruct R as [R|R];
      apply andb_true_iff in R; destruct R as [R1 R2];
      apply String.eqb_eq in R1; apply String.eqb_eq in R2; subst;
      auto using sorted_pair_comm.
Qed.

Lemma count_pairs_positions (a b : string) (l : list string) :
  count_edge (sorted_pair a b) (pairs_of l) = Z.of_nat (position_pairs a b l).
Proof.
  induction l as [|x r IH]; [reflexivity|].
  cbn [pairs_of position_pairs].
  rewrite count_edge_app, IH, Nat2Z.inj_add. f_equal.
  unfold count_edge. clear IH. induction r as [|y r IH]; [reflexivity|].
  cbn [map filter]. rewrite edge_eqb_sorted_pair.
  destruct (String.eqb x a && String.eqb y b || String.eqb x b && String.eqb y a);
    cbn [List.length]; lia.
Qed.

Lemma pair_occurrences_count (a b : node) (docs : list tweet) :
  pair_occurrences a b docs
  = count_edge (sorted_pair a b)
      (flat_map (fun tw => pairs_of (hashtags tw)) docs).
Proof.
  unfold pair_occurrences. induction docs as [|tw r IH]; [reflexivity|].
  cbn [flat_map map list_sum fold_right]. fold list_sum.
  rewrite count_edge_app, <- IH, count_pairs_positions.
  unfold list_sum. lia.
Qed.

Lemma hashtag_graph_weight (docs : list tweet) (a b : node) :
  weight (hashtag_graph_of docs) a b = pair_occurrences a b docs.
Proof.
  rewrite pair_occurrences_count.
  unfold weight, PyDict.get0. rewrite hashtag_graph_get.
  rewrite hashtag_pairs_flat. fold (PyDict.get0
    (fold_left PyDict.incr
       (flat_map (fun tw => pairs_of (hashtags tw)) docs) PyDict.empty)
    (sorted_pair a b)).
  now rewrite get0_counter.
Qed.

Lemma pair_occurrences_NoDup (a b : string) (docs : list tweet) :
  a <> b ->
  (forall tw, In tw docs -> NoDup (hashtags tw)) ->
  pair_occurrences a b docs = docs_with_both a b docs.
Proof.
  intros Hab. rewrite pair_occurrences_count. unfold docs_with_both.
  induction docs as [|tw r IH]; intros Hnd; [reflexivity|].
  cbn [flat_map filter]. rewrite count_edge_app, IH, count_pairs_of; auto.
  - destruct (mem a (hashtags tw) && mem b (hashtags tw));
      cbn [List.length]; lia.
  - apply Hnd. now left.
  - intros tw' H. apply Hnd. now right.
Qed.

Lemma is_directed_fold_add_both (items : list (edge * Z)) (g : Graph) :
  is_directed (fold_left add_both items g) = is_directed g.
Proof.
  revert g. induction items as [|[[h1 h2] w] r IH]; intros g; auto.
  cbn [fold_left]. now rewrite IH.
Qed.

(** C1, as the code has it: the counter [hashtag_pairs] holds every
    unordered pair once, under its sorted key; the graph is a directed
    graph that receives each counted pair in both directions with the
    counted value as weight, and holds no edge but these, so that [(a,b)]
    is an edge exactly when [(b,a)] is, with the same weight. *)
Theorem build_hashtag_graph_both_directions (docs : list tweet) :
  is_directed (hashtag_graph_of docs) = true
  /\ NoDup (PyDict.keys (hashtag_pairs (find_ne_empty hashtags docs)))
  /\ (forall h1 h2,
        In (h1, h2) (PyDict.keys (hashtag_pairs (find_ne_empty hashtags docs)))
        -> String.ltb h2 h1 = false)
  /\ (forall h1 h2 w,
        PyDict.get (hashtag_pairs (find_ne_empty hashtags docs)) (h1, h2)
        = Some w ->
        PyDict.get (adj (hashtag_graph_of docs)) (h1, h2) = Some w
        /\ PyDict.get (adj (hashtag_graph_of docs)) (h2, h1) = Some w)
  /\ (forall a b,
        PyDict.get (adj (hashtag_graph_of docs)) (a, b)
        = PyDict.get (hashtag_pairs (find_ne_empty hashtags docs))
            (sorted_pair a b))
  /\ (forall a b,
        has_edge (hashtag_graph_of docs) a b = has_edge (hashtag_graph_of docs) b a
        /\ weight (hashtag_graph_of docs) a b = weight (hashtag_graph_of docs) b a).
Proof.
  split.
  { unfold hashtag_graph_of, build_hashtag_graph. cbn [snd].
    now rewrite is_directed_fold_add_both. }
  split; [apply hashtag_pairs_NoDup|]. split.
  { intros h1 h2 H. exact (hashtag_pairs_canonical docs (h1, h2) H). }
  split.
  { intros h1 h2 w H.
    assert (C : String.ltb h2 h1 = false).
    { apply (hashtag_pairs_canonical docs (h1, h2)).
      apply get_in_keys. congruence. }
    rewrite !hashtag_graph_get, (sorted_pair_comm h2 h1).
    rewrite (sorted_pair_fix h1 h2 C). auto. }
  split; [intros a b; apply hashtag_graph_get|].
  intros a b. unfold has_edge, weight, PyDict.get0.
  rewrite !hashtag_graph_get, (sorted_pair_comm b a). auto.
Qed.

Lemma build_hashtag_graph_both_directions_witness :
  PyDict.get (adj (hashtag_graph_of [doc ["#b"; "#a"]; doc ["#a"; "#b"; "#c"]]))
    ("#a", "#b") = Some 2
  /\ PyDict.get (adj (hashtag_graph_of [doc ["#b"; "#a"]; doc ["#a"; "#b"; "#c"]]))
       ("#b", "#a") = Some 2.
Proof.
  destruct (build_hashtag_graph_both_directions
              [doc ["#b"; "#a"]; doc ["#a"; "#b"; "#c"]])
    as (_ & _ & _ & H & _).
  apply H. reflexivity.
Defined.

(** C1 fails as stated: for one document with the hashtags #a and #b the
    graph holds both the edge (#a,#b) and the edge (#b,#a). *)
Lemma build_hashtag_graph_both_directions_cex :
  ~ (forall (docs : list tweet) (a b : node), a <> b ->
       ~ (has_edge (hashtag_graph_of docs) a b = true
          /\ has_edge (hashtag_graph_of docs) b a = true)).
Proof.
  intros H. apply (H [doc ["#a"; "#b"]] "#a" "#b").
  - discriminate.
  - split; reflexivity.
Qed.

(** C2, as the code has it: the weight of the pair [a], [b] is the number of
    position pairs [i < j], over all documents, that hold the two hashtags;
    when no document repeats a hashtag this is the number of documents in
    which both appear. *)
Theorem build_hashtag_graph_weight (docs : list tweet) (a b : node) :
  weight (hashtag_graph_of docs) a b = pair_occurrences a b docs
  /\ ((forall tw, In tw docs -> NoDup (hashtags tw)) -> a <> b ->
      weight (hashtag_graph_of docs) a b = docs_with_both a b docs).
Proof.
  split; [apply hashtag_graph_weight|].
  intros Hnd Hab. rewrite hashtag_graph_weight.
  now apply pair_occurrences_NoDup.
Qed.

Lemma build_hashtag_graph_weight_witness :
  weight (hashtag_graph_of [doc ["#a"; "#b"; "#c"]; doc ["#b"; "#a"]]) "#a" "#b"
  = docs_with_both "#a" "#b" [doc ["#a"; "#b"; "#c"]; doc ["#b"; "#a"]].
Proof.
  apply (build_hashtag_graph_weight
           [doc ["#a"; "#b"; "#c"]; doc ["#b"; "#a"]] "#a" "#b").
  - intros tw [<-|[<-|[]]]; simpl;
      repeat (constructor; [simpl; intuition discriminate|]); constructor.
  - discriminate.
Defined.

(** C2 fails as stated: in one document with the hashtags #a, #a, #b the
    pair #a, #b is counted twice, and #a is paired with itself. *)
Lemma build_hashtag_graph_weight_cex :
  weight (hashtag_graph_of [doc ["#a"; "#a"; "#b"]]) "#a" "#b" = 2
  /\ docs_with_both "#a" "#b" [doc ["#a"; "#a"; "#b"]] = 1
  /\ has_edge (hashtag_graph_of [doc ["#a"; "#a"; "#b"]]) "#a" "#a" = true.
Proof. repeat split. Qed.

(** C7, as the code has it: two documents with the hashtags #a, #b, #c and
    #a, #b, whoever wrote them and whatever they mention, give a directed
    graph whose nodes are the three hashtags with their '#', and whose
    edges are the six ordered pairs of distinct hashtags: weight 2 on
    (#a,#b) and (#b,#a), weight 1 on (#a,#c), (#c,#a), (#b,#c) and
    (#c,#b). *)
Theorem build_hashtag_graph_scenario (author1 author2 : string)
  (mentions1 mentions2 : list string) :
  let g := hashtag_graph_of
             [ mkTweet author1 ["#a"; "#b"; "#c"] mentions1;
               mkTweet author2 ["#a"; "#b"] mentions2 ] in
  is_directed g = true
  /\ nodes g = ["#a"; "#b"; "#c"]
  /\ number_of_edges g = 6%nat
  /\ adj g
     = [ (("#a", "#b"), 2); (("#b", "#a"), 2); (("#a", "#c"), 1);
         (("#c", "#a"), 1); (("#b", "#c"), 1); (("#c", "#b"), 1) ]
  /\ weight g "#a" "#b" = 2 /\ weight g "#b" "#a" = 2
  /\ weight g "#a" "#c" = 1 /\ weight g "#c" "#a" = 1
  /\ weight g "#b" "#c" = 1 /\ weight g "#c" "#b" = 1.
Proof. repeat split. Qed.

(** C7 fails as stated: the graph of the two documents has no node a, b or
    c, and its edges are six, the pair #a, #b being stored as (#a,#b) and
    as (#b,#a), not three. *)
Lemma build_hashtag_graph_scenario_cex :
  has_node (nodes (hashtag_graph_of [doc ["#a"; "#b"; "#c"]; doc ["#a"; "#b"]]))
    "a" = false
  /\ has_node (nodes (hashtag_graph_of [doc ["#a"; "#b"; "#c"]; doc ["#a"; "#b"]]))
       "b" = false
  /\ has_node (nodes (hashtag_graph_of [doc ["#a"; "#b"; "#c"]; doc ["#a"; "#b"]]))
       "c" = false
  /\ number_of_edges
       (hashtag_graph_of [doc ["#a"; "#b"; "#c"]; doc ["#a"; "#b"]]) <> 3%nat
  /\ has_edge (hashtag_graph_of [doc ["#a"; "#b"; "#c"]; doc ["#a"; "#b"]])
       "#a" "#b" = true
  /\ has_edge (hashtag_graph_of [doc ["#a"; "#b"; "#c"]; doc ["#a"; "#b"]])
       "#b" "#a" = true.
Proof. repeat split. discriminate. Qed.

(** ** The mention graph *)

Lemma get_fold_add_one (items : list (edge * Z)) (g : Graph) (e : edge) :
  NoDup (PyDict.keys items) ->
  PyDict.get (adj (fold_left add_one items g)) e
  = match PyDict.get items e with
    | Some w => Some w
    | None => PyDict.get (adj g) e
    end.
Proof.
  revert g. induction items as [|[[s t] w] r IH]; intros g Hnd.
  - reflexivity.
  - cbn [fold_left]. inversion Hnd as [|? ? Hnotin Hnd']; subst.
    rewrite IH by auto. cbn [PyDict.get add_one add_edge adj].
    rewrite get_set.
    destruct (edge_eqb_spec (s, t) e) as [<-|NE].
    + destruct (PyDict.get r (s, t)) eqn:G; auto.
      exfalso. apply Hnotin. apply get_in_keys. simpl in *. congruence.
    + reflexivity.
Qed.

Lemma mention_edges_flat (docs : list tweet) :
  mention_edges (find_ne_empty mentions docs)
  = fold_left PyDict.incr (flat_map tweet_mention_edges docs) PyDict.empty.
Proof.
  unfold mention_edges. rewrite counter_flat.
  rewrite flat_map_find_ne_empty; auto.
  intros tw H. unfold tweet_mention_edges. now rewrite H.
Qed.

Lemma mention_graph_get (docs : list tweet) (e : edge) :
  PyDict.get (adj (mention_graph_of docs)) e
  = if count_edge e (flat_map tweet_mention_edges docs) =? 0 then None
    else Some (count_edge e (flat_map tweet_mention_edges docs)).
Proof.
  unfold mention_graph_of, build_mention_graph.
  cbn [snd init collection mention_graph]. unfold PyDict.items.
  rewrite get_fold_add_one.
  - rewrite mention_edges_flat, get_counter.
    now destruct (count_edge e _ =? 0).
  - unfold mention_edges. rewrite counter_flat.
    apply NoDup_keys_fold_incr. constructor.
Qed.

Lemma count_tweet_mention_edges (author target : string) (tw : tweet) :
  NoDup (map mention_clean (mentions tw)) ->
  count_edge (author, target) (tweet_mention_edges tw)
  = if String.eqb (author_id tw) author
       && mem target (map mention_clean (mentions tw))
    then 1 else 0.
Proof.
  unfold tweet_mention_edges. generalize (author_id tw) as a.
  intros a. induction (mentions tw) as [|m r IH]; intros Hnd.
  - cbn. now rewrite andb_false_r.
  - cbn [map] in *. inversion Hnd as [|? ? Hnotin Hnd']; subst.
    rewrite count_edge_cons, IH by auto.
    cbn [mem existsb]. fold (mem target (map mention_clean r)).
    unfold edge_eqb. cbn [fst snd].
    rewrite (String.eqb_sym author a).
    destruct (String.eqb_spec a author) as [->|Ha]; cbn [andb]; auto.
    destruct (String.eqb_spec target (mention_clean m)) as [->|Ht];
      cbn [orb]; auto.
    destruct (mem (mention_clean m) (map mention_clean r)) eqn:M; auto.
    apply mem_In in M. contradiction.
Qed.

Lemma count_tweet_tokens (author target : string) (tw : tweet) :
  count_edge (author, target) (tweet_mention_edges tw)
  = Z.of_nat (if String.eqb (author_id tw) author
              then tokens_naming target tw else 0%nat).
Proof.
  unfold tweet_mention_edges, tokens_naming, count_edge.
  generalize (author_id tw) as a. intros a.
  induction (mentions tw) as [|m r IH].
  - cbn. now destruct (String.eqb a author).
  - cbn [map filter]. unfold edge_eqb at 1. cbn [fst snd].
    rewrite (String.eqb_sym author a), (String.eqb_sym target (mention_clean m)).
    destruct (String.eqb a author) eqn:Ea; cbn [andb].
    + destruct (String.eqb (mention_clean m) target);
        cbn [List.length]; rewrite ?Nat2Z.inj_succ; rewrite IH; reflexivity.
    + exact IH.
Qed.

Lemma mention_occurrences_count (author target : node) (docs : list tweet) :
  mention_occurrences author target docs
  = count_edge (author, target) (flat_map tweet_mention_edges docs).
Proof.
  unfold mention_occurrences. induction docs as [|tw r IH]; [reflexivity|].
  cbn [flat_map map list_sum fold_right].
  rewrite count_edge_app, <- IH, count_tweet_tokens.
  unfold list_sum. lia.
Qed.

Lemma mention_occurrences_NoDup (author target : string) (docs : list tweet) :
  (forall tw, In tw docs -> NoDup (map mention_clean (mentions tw))) ->
  mention_occurrences author target docs = docs_mentioning author target docs.
Proof.
  rewrite mention_occurrences_count. unfold docs_mentioning.
  induction docs as [|tw r IH]; intros Hnd; [reflexivity|].
  cbn [flat_map filter].
  rewrite count_edge_app, IH, count_tweet_mention_edges.
  - destruct (String.eqb (author_id tw) author && _);
      cbn [List.length]; lia.
  - apply Hnd. now left.
  - intros tw' H. apply Hnd. now right.
Qed.

(** C3, as the code has it: the weight of the edge from an author to a
    target is the number of mention tokens naming the target in the
    author's documents, and the edge is there exactly when that number is
    not 0; this holds for an author who mentions themselves as for any
    other target.  When no document names a target twice, the weight is the
    number of the author's documents that mention the target. *)
Theorem build_mention_graph_weight (docs : list tweet) (author target : node) :
  weight (mention_graph_of docs) author target
  = mention_occurrences author target docs
  /\ has_edge (mention_graph_of docs) author target
     = (0 <? mention_occurrences author target docs)
  /\ weight (mention_graph_of docs) author author
     = mention_occurrences author author docs
  /\ ((forall tw, In tw docs -> NoDup (map mention_clean (mentions tw))) ->
      weight (mention_graph_of docs) author target
      = docs_mentioning author target docs).
Proof.
  assert (W : forall s t, weight (mention_graph_of docs) s t
                          = mention_occurrences s t docs).
  { intros s t. rewrite mention_occurrences_count.
    unfold weight, PyDict.get0. rewrite mention_graph_get.
    match goal with
    | |- context [?c =? 0] => destruct (Z.eqb_spec c 0) as [E|E]
    end; [symmetry; exact E|reflexivity]. }
  repeat split; auto.
  - rewrite mention_occurrences_count.
    unfold has_edge. rewrite mention_graph_get.
    match goal with
    | |- context [?c =? 0] =>
        pose proof (count_edge_nonneg (author, target)
                      (flat_map tweet_mention_edges docs) : 0 <= c);
        destruct (Z.eqb_spec c 0) as [E|E]
    end.
    + now rewrite E.
    + symmetry. apply Z.ltb_lt. lia.
  - intros Hnd. rewrite W. now apply mention_occurrences_NoDup.
Qed.

Lemma build_mention_graph_weight_witness :
  weight (mention_graph_of
            [mkTweet "u1" [] ["@u2"]; mkTweet "u1" [] ["@u2"; "@u1"];
             mkTweet "u2" [] ["@u1"]]) "u1" "u2"
  = docs_mentioning "u1" "u2"
      [mkTweet "u1" [] ["@u2"]; mkTweet "u1" [] ["@u2"; "@u1"];
       mkTweet "u2" [] ["@u1"]].
Proof.
  apply (build_mention_graph_weight
           [mkTweet "u1" [] ["@u2"]; mkTweet "u1" [] ["@u2"; "@u1"];
            mkTweet "u2" [] ["@u1"]] "u1" "u2").
  intros tw [<-|[<-|[<-|[]]]]; simpl;
    repeat (constructor; [simpl; intuition discriminate|]); constructor.
Defined.

(** C3 fails as stated: one document of u1 that names @u2 twice gives the
    edge (u1,u2) the weight 2, while one document mentions u2. *)
Lemma build_mention_graph_weight_cex :
  weight (mention_graph_of [mkTweet "u1" [] ["@u2"; "@u2"]]) "u1" "u2" = 2
  /\ docs_mentioning "u1" "u2" [mkTweet "u1" [] ["@u2"; "@u2"]] = 1.
Proof. split; reflexivity. Qed.

Lemma str_replace_removes (c : ascii) (s : string) :
  ~ contains_char c (str_replace c "" s).
Proof.
  unfold contains_char. induction s as [|x r IH]; simpl; auto.
  destruct (Ascii.eqb_spec x c) as [->|Hne]; simpl; auto.
  intros [E|H]; auto.
Qed.

Lemma add_node_incl (ns : list node) (n m : node) :
  In m ns -> In m (add_node ns n).
Proof.
  unfold add_node. destruct (has_node ns n); auto.
  intros H. apply in_or_app. now left.
Qed.

Lemma add_node_in (ns : list node) (n : node) : In n (add_node ns n).
Proof.
  unfold add_node. destruct (has_node ns n) eqn:E.
  - apply existsb_exists in E. destruct E as (x & Hx & E).
    apply String.eqb_eq in E. now subst.
  - apply in_or_app. right. now left.
Qed.

Lemma nodes_fold_add_one_incl (items : list (edge * Z)) (g : Graph) (n : node) :
  In n (nodes g) -> In n (nodes (fold_left add_one items g)).
Proof.
  revert g. induction items as [|[[s t] w] r IH]; intros g H; auto.
  cbn [fold_left]. apply IH. cbn. now do 2 apply add_node_incl.
Qed.

Lemma nodes_fold_add_one (items : list (edge * Z)) (g : Graph) (s t : node) :
  In (s, t) (PyDict.keys items) ->
  In s (nodes (fold_left add_one items g))
  /\ In t (nodes (fold_left add_one items g)).
Proof.
  revert g. induction items as [|[[s' t'] w] r IH]; intros g H; [easy|].
  cbn [fold_left]. destruct H as [E|H]; [|now apply IH].
  cbn in E. inversion E; subst.
  split; apply nodes_fold_add_one_incl; cbn.
  - apply add_node_incl, add_node_in.
  - apply add_node_in.
Qed.

(** C10: an edge of the mention graph leads from the author of some
    document to one of its mention tokens with every '@' removed; the
    target is a node of the graph and holds no '@'. *)
Theorem build_mention_graph_targets (docs : list tweet) (source target : node) :
  has_edge (mention_graph_of docs) source target = true ->
  (exists tw mention,
      In tw docs /\ In mention (mentions tw)
      /\ source = author_id tw
      /\ target = str_replace at_sign "" mention)
  /\ In target (nodes (mention_graph_of docs))
  /\ ~ contains_char at_sign target.
Proof.
  intros H.
  assert (K : In (source, target) (flat_map tweet_mention_edges docs)).
  { unfold has_edge in H. rewrite mention_graph_get in H.
    apply count_edge_in.
    destruct (count_edge (source, target) _ =? 0) eqn:E; [discriminate|].
    now apply Z.eqb_neq in E. }
  assert (T : exists tw mention,
             In tw docs /\ In mention (mentions tw)
             /\ source = author_id tw
             /\ target = str_replace at_sign "" mention).
  { apply in_flat_map in K. destruct K as (tw & Htw & K).
    unfold tweet_mention_edges in K. apply in_map_iff in K.
    destruct K as (m & E & Hm). inversion E; subst.
    exists tw, m. auto. }
  split; [exact T|]. split.
  - unfold mention_graph_of, build_mention_graph.
    cbn [snd init collection mention_graph]. unfold PyDict.items.
    apply (nodes_fold_add_one _ DiGraph source target).
    apply get_in_keys. rewrite mention_edges_flat, get_counter.
    destruct (count_edge (source, target) _ =? 0) eqn:E; [|discriminate].
    apply Z.eqb_eq in E. unfold has_edge in H.
    rewrite mention_graph_get, E in H. discriminate.
  - destruct T as (tw & m & _ & _ & _ & ->). apply str_replace_removes.
Qed.

Lemma build_mention_graph_targets_witness :
  (exists tw mention,
      In tw [mkTweet "u1" [] ["@u2"]] /\ In mention (mentions tw)
      /\ "u1" = author_id tw
      /\ "u2" = str_replace at_sign "" mention)
  /\ In "u2" (nodes (mention_graph_of [mkTweet "u1" [] ["@u2"]]))
  /\ ~ contains_char at_sign "u2".
Proof.
  apply (build_mention_graph_targets [mkTweet "u1" [] ["@u2"]] "u1" "u2").
  reflexivity.
Defined.

(** ** Ranking *)

Lemma Qltb_lt (x y : Q) : Qltb x y = true <-> (x < y)%Q.
Proof.
  unfold Qltb. rewrite negb_true_iff. split.
  - intros H. apply Qnot_le_lt. intros L.
    apply Qle_bool_iff in L. congruence.
  - intros H. destruct (Qle_bool y x) eqn:E; auto.
    apply Qle_bool_iff in E. exfalso. exact (Qlt_not_le _ _ H E).
Qed.

Lemma Qltb_ge (x y : Q) : Qltb x y = false <-> (y <= x)%Q.
Proof.
  unfold Qltb. rewrite negb_false_iff. apply Qle_bool_iff.
Qed.

Lemma insert_desc_perm (x : node * score) (l : list (node * score)) :
  Permutation (insert_desc x l) (x :: l).
Proof.
  induction l as [|y r IH]; simpl; auto.
  destruct (Qltb (snd x) (snd y)); auto.
  rewrite IH. apply perm_swap.
Qed.

Lemma insert_desc_descending (x : node * score) (l : list (node * score)) :
  descending l -> descending (insert_desc x l).
Proof.
  unfold descending. induction 1 as [|y r Hr IH Hy]; simpl.
  - repeat constructor.
  - destruct (Qltb (snd x) (snd y)) eqn:E.
    + constructor; auto.
      apply (Permutation_Forall (Permutation_sym (insert_desc_perm x r))).
      constructor; auto. apply Qltb_lt in E. now apply Qlt_le_weak.
    + apply Qltb_ge in E. constructor.
      * now constructor.
      * constructor; auto.
        eapply Forall_impl; [|exact Hy]. cbn. intros z Hz.
        now apply Qle_trans with (snd y).
Qed.

Lemma insert_desc_tied (s : score) (x : node * score)
  (l : list (node * score)) :
  tied s (insert_desc x l) = tied s (x :: l).
Proof.
  unfold tied. induction l as [|y r IH]; auto.
  cbn [insert_desc]. destruct (Qltb (snd x) (snd y)) eqn:E; auto.
  cbn [filter] in *. rewrite IH.
  destruct (Qeq_bool (snd y) s) eqn:Ey, (Qeq_bool (snd x) s) eqn:Ex; auto.
  exfalso. apply Qltb_lt in E.
  apply Qeq_bool_iff in Ey. apply Qeq_bool_iff in Ex.
  apply (Qlt_not_eq _ _ E). now rewrite Ex, Ey.
Qed.

Lemma sorted_reverse_perm (l : list (node * score)) :
  Permutation (sorted_reverse l) l.
Proof.
  induction l as [|x r IH]; simpl; auto.
  rewrite insert_desc_perm. now constructor.
Qed.

Lemma sorted_reverse_descending (l : list (node * score)) :
  descending (sorted_reverse l).
Proof.
  induction l as [|x r IH]; simpl.
  - constructor.
  - now apply insert_desc_descending.
Qed.

Lemma sorted_reverse_tied (s : score) (l : list (node * score)) :
  tied s (sorted_reverse l) = tied s l.
Proof.
  induction l as [|x r IH]; simpl; auto.
  rewrite insert_desc_tied. unfold tied in *. cbn [filter]. now rewrite IH.
Qed.

Lemma sorted_reverse_length (l : list (node * score)) :
  List.length (sorted_reverse l) = List.length l.
Proof. apply Permutation_length, sorted_reverse_perm. Qed.

Lemma firstn_prefix {A} (n m : nat) (l : list A) :
  (n <= m)%nat -> is_prefix (firstn n l) (firstn m l).
Proof.
  intros H. exists (skipn n (firstn m l)).
  rewrite <- (firstn_skipn n (firstn m l)) at 1.
  f_equal. rewrite firstn_firstn. f_equal. lia.
Qed.

Lemma is_prefix_nil {A} (p : list A) : is_prefix p [] <-> p = [].
Proof.
  split.
  - intros [r H]. symmetry in H. now apply app_eq_nil in H.
  - intros ->. now exists [].
Qed.

Lemma firstn_eq_nil {A} (n : nat) (l : list A) :
  firstn n l = [] <-> n = 0%nat \/ l = [].
Proof.
  destruct n, l; simpl; split; auto; try discriminate.
  intros [H|H]; discriminate.
Qed.

Lemma slice_to_prefix {A} (l : list A) (k : Z) :
  is_prefix (slice_to l k) (slice_to l (k + 1))
  <-> (k <> -1 \/ (List.length l <= 1)%nat).
Proof.
  unfold slice_to.
  destruct (Z.ltb_spec k 0) as [Hk|Hk], (Z.ltb_spec (k + 1) 0) as [Hk1|Hk1];
    try lia.
  - split; [lia|]. intros _. apply firstn_prefix. lia.
  - assert (k = -1) by lia. subst k. cbn [Z.add Z.to_nat firstn].
    rewrite is_prefix_nil, firstn_eq_nil. split.
    + intros [H| ->]; right; simpl; lia.
    + intros [H|H]; [lia|]. destruct l as [|x [|y r]]; simpl in *; auto. lia.
  - split; [lia|]. intros _. apply firstn_prefix. lia.
Qed.

Lemma slice_to_all {A} (l : list A) (n : Z) :
  Z.of_nat (List.length l) <= n -> slice_to l n = l.
Proof.
  intros H. unfold slice_to. destruct (Z.ltb_spec n 0); [lia|].
  apply firstn_all2. lia.
Qed.

Lemma in_degree_node_order (g : Graph) :
  map fst (int_scores (in_degree g)) = nodes g.
Proof.
  unfold int_scores, in_degree. rewrite !map_map. cbn. apply map_id.
Qed.

(** C4, as the code has it: the scores are sorted by a stable sort into
    descending order (the sorted sequence holds the same entries, no entry
    is followed by a larger score, and entries with tied scores keep the
    order of the score mapping, which for the degree metric is the order in
    which the nodes entered the graph), and the sorted sequence is cut by
    the slice [[:top_n]]: its first [top_n] entries for [top_n >= 0], hence
    nothing for 0 and everything from the node count on, and all but its
    last [-top_n] entries for a negative [top_n]. *)
Theorem get_top_nodes_ranking (node_scores : list (node * score)) (top_n : Z)
  (graph : Graph) :
  Permutation (sorted_reverse node_scores) node_scores
  /\ descending (sorted_reverse node_scores)
  /\ (forall s, tied s (sorted_reverse node_scores) = tied s node_scores)
  /\ map fst (int_scores (in_degree graph)) = nodes graph
  /\ (0 <= top_n ->
      top_nodes node_scores top_n
      = firstn (Z.to_nat top_n) (sorted_reverse node_scores))
  /\ top_nodes node_scores 0 = []
  /\ (Z.of_nat (List.length node_scores) <= top_n ->
      top_nodes node_scores top_n = sorted_reverse node_scores)
  /\ (top_n < 0 ->
      top_nodes node_scores top_n
      = firstn (List.length node_scores - Z.to_nat (- top_n))
               (sorted_reverse node_scores)).
Proof.
  split; [apply sorted_reverse_perm|].
  split; [apply sorted_reverse_descending|].
  split; [intros s; apply sorted_reverse_tied|].
  split; [apply in_degree_node_order|].
  unfold top_nodes, slice_to. repeat split.
  - intros H. destruct (Z.ltb_spec top_n 0); [lia|reflexivity].
  - intros H. fold (slice_to (sorted_reverse node_scores) top_n).
    apply slice_to_all. now rewrite sorted_reverse_length.
  - intros H. destruct (Z.ltb_spec top_n 0); [|lia].
    f_equal. rewrite sorted_reverse_length. lia.
Qed.

Lemma get_top_nodes_ranking_witness :
  top_nodes [("a", 1%Q); ("b", 2%Q); ("c", 1%Q)] 5
  = sorted_reverse [("a", 1%Q); ("b", 2%Q); ("c", 1%Q)]
  /\ top_nodes [("a", 1%Q); ("b", 2%Q); ("c", 1%Q)] (-2)
     = firstn (3 - 2) (sorted_reverse [("a", 1%Q); ("b", 2%Q); ("c", 1%Q)]).
Proof.
  split.
  - destruct (get_top_nodes_ranking
                [("a", 1%Q); ("b", 2%Q); ("c", 1%Q)] 5 DiGraph)
      as (_ & _ & _ & _ & _ & _ & Hall & _).
    apply Hall. simpl. lia.
  - destruct (get_top_nodes_ranking
                [("a", 1%Q); ("b", 2%Q); ("c", 1%Q)] (-2) DiGraph)
      as (_ & _ & _ & _ & _ & _ & _ & Hneg).
    apply Hneg. lia.
Defined.

(** C4 fails as stated: with three scored nodes and [top_n = -1] the two
    best nodes are returned, not the empty sequence. *)
Lemma get_top_nodes_ranking_cex :
  -1 <= 0
  /\ top_nodes [("a", 1%Q); ("b", 3%Q); ("c", 2%Q)] (-1)
     = [("b", 3%Q); ("c", 2%Q)]
  /\ top_nodes [("a", 1%Q); ("b", 3%Q); ("c", 2%Q)] (-1) <> [].
Proof. split; [lia|]. split; [reflexivity|discriminate]. Qed.

(** C8, as the code has it: the ranking for [k] is a prefix of the ranking
    for [k + 1] for every [k] other than -1, and for [k = -1] exactly when
    there is at most one scored node. *)
Theorem top_nodes_prefix (node_scores : list (node * score)) (k : Z) :
  is_prefix (top_nodes node_scores k) (top_nodes node_scores (k + 1))
  <-> (k <> -1 \/ (List.length node_scores <= 1)%nat).
Proof.
  unfold top_nodes. rewrite slice_to_prefix.
  now rewrite sorted_reverse_length.
Qed.

(** C8 fails as stated: with two scored nodes the ranking for -1 holds the
    best node, and the ranking for 0 is empty. *)
Lemma top_nodes_prefix_cex :
  ~ is_prefix (top_nodes [("a", 2%Q); ("b", 1%Q)] (-1))
              (top_nodes [("a", 2%Q); ("b", 1%Q)] (-1 + 1)).
Proof.
  intros [r H]. vm_compute in H. discriminate.
Qed.

(** The same at the level of [get_top_nodes]: whatever the metric, two
    calls that differ by one in [top_n] raise alike or return rankings of
    which the first is a prefix of the second. *)
Lemma get_top_nodes_prefix (nx : Networkx) (graph : Graph) (metric : string)
  (k : Z) :
  k <> -1 ->
  match get_top_nodes nx graph metric k,
        get_top_nodes nx graph metric (k + 1) with
  | Return l1, Return l2 => is_prefix l1 l2
  | Raise e1, Raise e2 => e1 = e2
  | _, _ => False
  end.
Proof.
  intros Hk. unfold get_top_nodes, top_nodes.
  assert (P : forall l : list (node * score),
             is_prefix (slice_to l k) (slice_to l (k + 1))).
  { intros l. apply slice_to_prefix. now left. }
  assert (N : is_prefix (@nil (node * score)) []) by now exists [].
  destruct (number_of_nodes graph =? 0)%nat; auto.
  destruct (String.eqb metric "degree").
  { destruct (is_directed graph); apply P. }
  destruct (String.eqb metric "betweenness"); [apply P|].
  destruct (String.eqb metric "closeness"); [apply P|].
  destruct (String.eqb metric "eigenvector"); auto.
  destruct (eigenvector_centrality nx graph 1000); [apply P|reflexivity].
Qed.

(** C9, as the code has it: a metric name outside degree, betweenness,
    closeness and eigenvector makes [get_top_nodes] return the empty
    list, an ordinary result, whatever the library would compute. *)
Theorem get_top_nodes_unknown_metric (nx : Networkx) (graph : Graph)
  (metric : string) (top_n : Z) :
  known_metric metric = false ->
  get_top_nodes nx graph metric top_n = Return [].
Proof.
  unfold known_metric, get_top_nodes. intros H.
  apply orb_false_iff in H. destruct H as [H He].
  apply orb_false_iff in H. destruct H as [H Hc].
  apply orb_false_iff in H. destruct H as [Hd Hb].
  rewrite Hd, Hb, Hc, He.
  now destruct (number_of_nodes graph =? 0)%nat.
Qed.

Lemma get_top_nodes_unknown_metric_witness :
  get_top_nodes nx_unconverged (mention_graph_of mention_docs) "pagerank" 10
  = Return [].
Proof.
  apply (get_top_nodes_unknown_metric
           nx_unconverged (mention_graph_of mention_docs) "pagerank" 10).
  reflexivity.
Defined.

(** C9 fails as stated: on the mention graph of the scenario, which has two
    nodes, the unknown metric pagerank is answered with the empty list and
    with no error. *)
Lemma get_top_nodes_unknown_metric_cex :
  number_of_nodes (mention_graph_of mention_docs) = 2%nat
  /\ known_metric "pagerank" = false
  /\ get_top_nodes nx_unconverged (mention_graph_of mention_docs) "pagerank" 10
     = Return []
  /\ forall e,
       get_top_nodes nx_unconverged (mention_graph_of mention_docs)
         "pagerank" 10 <> Raise e.
Proof. repeat split. discriminate. Qed.

Lemma get_top_nodes_raise_through (nx : Networkx) (graph : Graph)
  (top_n : Z) (e : exn) :
  number_of_nodes graph <> 0%nat ->
  eigenvector_centrality nx graph 1000 = Raise e ->
  get_top_nodes nx graph "eigenvector" top_n = Raise e.
Proof.
  intros Hn He. unfold get_top_nodes.
  destruct (Nat.eqb_spec (number_of_nodes graph) 0); [contradiction|].
  cbn. now rewrite He.
Qed.

(** The iteration gives nothing exactly when none of its rounds meets the
    tolerance. *)
Lemma power_iteration_None (g : Graph) (n : nat) (x : fvec) :
  power_iteration g n x = None
  <-> forall k, (k < n)%nat ->
        converged g (Nat.iter (S k) (round g) x) (Nat.iter k (round g) x)
        = false.
Proof.
  revert x. induction n as [|n IH]; intros x.
  - split; [intros _ k Hk; lia|reflexivity].
  - cbn [power_iteration]. split.
    + destruct (converged g (round g x) x) eqn:C; [discriminate|].
      intros H k Hk. destruct k as [|k]; [exact C|].
      rewrite !(Nat.iter_succ_r _ _ (round g) x).
      apply (proj1 (IH (round g x)) H). lia.
    + intros H. assert (C : converged g (round g x) x = false)
        by (apply (H 0%nat); lia).
      rewrite C. apply IH. intros k Hk.
      rewrite <- !(Nat.iter_succ_r _ _ (round g) x). apply H. lia.
Qed.

(** C5, as the code has it: on a graph with nodes, when none of the 1000
    rounds of the power iteration meets the tolerance,
    [nx.eigenvector_centrality] raises [PowerIterationFailedConvergence]
    after the last round and the exception leaves [get_top_nodes]; no
    scores and no flag are returned. *)
Theorem get_top_nodes_eigenvector_raises (nx : Networkx) (graph : Graph)
  (top_n : Z) :
  number_of_nodes graph <> 0%nat ->
  (forall k, (k < 1000)%nat ->
     converged graph (rounds_from_start graph (S k))
                     (rounds_from_start graph k) = false) ->
  nx_eigenvector_centrality graph 1000
  = Raise (PowerIterationFailedConvergence 1000)
  /\ get_top_nodes (with_power_iteration nx) graph "eigenvector" top_n
     = Raise (PowerIterationFailedConvergence 1000).
Proof.
  intros Hn H.
  assert (E : nx_eigenvector_centrality graph 1000
              = Raise (PowerIterationFailedConvergence 1000)).
  { unfold nx_eigenvector_centrality.
    now rewrite (proj2 (power_iteration_None graph 1000 (nstart graph)) H). }
  split; [exact E|]. now apply get_top_nodes_raise_through.
Qed.

Lemma get_top_nodes_eigenvector_raises_witness :
  nx_eigenvector_centrality (mention_graph_of (mention_chain 40)) 1000
  = Raise (PowerIterationFailedConvergence 1000)
  /\ get_top_nodes (with_power_iteration nx_unconverged)
       (mention_graph_of (mention_chain 40)) "eigenvector" 10
     = Raise (PowerIterationFailedConvergence 1000).
Proof.
  apply (get_top_nodes_eigenvector_raises nx_unconverged
           (mention_graph_of (mention_chain 40)) 10).
  - vm_compute. discriminate.
  - apply (proj1 (power_iteration_None (mention_graph_of (mention_chain 40))
                    1000 (nstart (mention_graph_of (mention_chain 40))))).
    vm_compute. reflexivity.
Defined.

(** C5 fails as stated: for the documents in which each of the users u1 to
    u39 mentions the next one, the mention graph is the path from u1 to
    u40; the error of the power iteration is still above the tolerance in
    round 1000, and the call raises: it returns no scores and no flag. *)
Lemma get_top_nodes_eigenvector_raises_cex :
  number_of_nodes (mention_graph_of (mention_chain 40)) = 40%nat
  /\ power_iteration (mention_graph_of (mention_chain 40)) 1000
       (nstart (mention_graph_of (mention_chain 40))) = None
  /\ get_top_nodes (with_power_iteration nx_unconverged)
       (mention_graph_of (mention_chain 40)) "eigenvector" 10
     = Raise (PowerIterationFailedConvergence 1000)
  /\ forall l,
       get_top_nodes (with_power_iteration nx_unconverged)
         (mention_graph_of (mention_chain 40)) "eigenvector" 10 <> Return l.
Proof.
  assert (N : power_iteration (mention_graph_of (mention_chain 40)) 1000
                (nstart (mention_graph_of (mention_chain 40))) = None)
    by (vm_compute; reflexivity).
  assert (R : get_top_nodes (with_power_iteration nx_unconverged)
                (mention_graph_of (mention_chain 40)) "eigenvector" 10
              = Raise (PowerIterationFailedConvergence 1000)).
  { apply get_top_nodes_raise_through; [vm_compute; discriminate|].
    cbn [eigenvector_centrality with_power_iteration].
    unfold nx_eigenvector_centrality. now rewrite N. }
  split; [vm_compute; reflexivity|]. split; [exact N|]. split; [exact R|].
  intros l. rewrite R. discriminate.
Qed.

(** On the mention graph of the scenario, the two users mentioning each
    other, the iteration meets the tolerance in its second round and the
    call returns the scores. *)
Lemma get_top_nodes_eigenvector_converges :
  exists l,
    get_top_nodes (with_power_iteration nx_unconverged)
      (mention_graph_of mention_docs) "eigenvector" 10 = Return l
    /\ map fst l = ["u1"; "u2"]
    /\ power_iteration (mention_graph_of mention_docs) 1
         (nstart (mention_graph_of mention_docs)) = None
    /\ power_iteration (mention_graph_of mention_docs) 2
         (nstart (mention_graph_of mention_docs)) <> None.
Proof.
  eexists. split; [vm_compute; reflexivity|].
  split; [reflexivity|]. split; [vm_compute; reflexivity|].
  vm_compute. discriminate.
Qed.

(** ** Metrics *)

Lemma density_small (g : Graph) :
  (number_of_nodes g <= 1)%nat -> density g = PyInt 0.
Proof.
  intros H. unfold density.
  destruct (Z.leb_spec (Z.of_nat (number_of_nodes g)) 1); [|lia].
  now rewrite orb_true_r.
Qed.

(** C6, as the code has it: for the graph with 0 nodes the metrics are the
    empty dict, which has no statistics and no density field; for a graph
    with 1 node the density field is 0. *)
Theorem calculate_graph_metrics_small (nx : Networkx) (graph : Graph)
  (graph_name : string) :
  (number_of_nodes graph = 0%nat ->
   calculate_graph_metrics nx graph graph_name = []
   /\ forall key,
        metrics_get (calculate_graph_metrics nx graph graph_name) key = None)
  /\ (number_of_nodes graph = 1%nat ->
      metrics_get (calculate_graph_metrics nx graph graph_name) "density"
      = Some (PyInt 0)).
Proof.
  unfold calculate_graph_metrics. split; intros H; rewrite H; cbn.
  - auto.
  - rewrite density_small by lia. now destruct (is_directed graph).
Qed.

Lemma calculate_graph_metrics_small_witness :
  calculate_graph_metrics nx_unconverged DiGraph "Empty Graph" = []
  /\ metrics_get
       (calculate_graph_metrics nx_unconverged
          (add_edge DiGraph "u1" "u1" 1) "Self Mention Graph") "density"
     = Some (PyInt 0).
Proof.
  split.
  - apply (calculate_graph_metrics_small nx_unconverged DiGraph "Empty Graph").
    reflexivity.
  - apply (calculate_graph_metrics_small
             nx_unconverged (add_edge DiGraph "u1" "u1" 1)
             "Self Mention Graph").
    reflexivity.
Defined.

(** C6 fails as stated: for the graph with 0 nodes nothing is returned for
    any statistic; the dict is empty and has no density field. *)
Lemma calculate_graph_metrics_small_cex :
  number_of_nodes DiGraph = 0%nat
  /\ calculate_graph_metrics nx_unconverged DiGraph "Empty Graph" = []
  /\ metrics_get (calculate_graph_metrics nx_unconverged DiGraph "Empty Graph")
       "density" = None
  /\ metrics_get (calculate_graph_metrics nx_unconverged DiGraph "Empty Graph")
       "nodes" <> Some (PyInt 0).
Proof. repeat split. discriminate. Qed.

(** * Further properties of the builder *)

(** ** What every built graph keeps *)

Lemma has_node_In (ns : list node) (n : node) :
  has_node ns n = true <-> In n ns.
Proof.
  unfold has_node. rewrite existsb_exists. split.
  - intros (x & Hx & E). apply String.eqb_eq in E. now subst.
  - intros H. exists n. split; auto. apply String.eqb_refl.
Qed.

Lemma add_node_NoDup (ns : list node) (n : node) :
  NoDup ns -> NoDup (add_node ns n).
Proof.
  intros H. unfold add_node. destruct (has_node ns n) eqn:E; auto.
  apply NoDup_snoc; auto. rewrite <- has_node_In. congruence.
Qed.

Lemma add_node_inv (ns : list node) (n m : node) :
  In m (add_node ns n) -> m = n \/ In m ns.
Proof.
  unfold add_node. destruct (has_node ns n); auto.
  rewrite in_app_iff. simpl. intuition.
Qed.

Lemma keys_set_in (d : PyDict.t) (k k' : edge) (v : Z) :
  In k' (PyDict.keys (PyDict.set d k v)) <-> k' = k \/ In k' (PyDict.keys d).
Proof.
  rewrite keys_set. destruct (PyDict.get d k) eqn:E.
  - split; auto. intros [->|H]; auto. apply get_in_keys. congruence.
  - rewrite in_app_iff. simpl. intuition.
Qed.

Lemma has_edge_keys (g : Graph) (u v : node) :
  has_edge g u v = true <-> In (u, v) (PyDict.keys (adj g)).
Proof.
  unfold has_edge. rewrite get_in_keys.
  destruct (PyDict.get (adj g) (u, v)); split; congruence.
Qed.

Lemma add_edge_inv (g : Graph) (u v : node) (w : Z) :
  graph_inv g -> graph_inv (add_edge g u v w).
Proof.
  intros (Hd & Hn & Hk & He & Hc). unfold graph_inv. cbn [add_edge is_directed nodes adj].
  split; [exact Hd|]. split; [now do 2 apply add_node_NoDup|].
  split; [now apply NoDup_keys_set|]. split.
  - intros a b H. apply keys_set_in in H. destruct H as [E|H].
    + inversion E; subst. split.
      * apply add_node_incl, add_node_in.
      * apply add_node_in.
    + destruct (He a b H). split; now do 2 apply add_node_incl.
  - intros n H. apply add_node_inv in H. destruct H as [->|H].
    + exists u. right. apply keys_set_in. now left.
    + apply add_node_inv in H. destruct H as [->|H].
      * exists v. left. apply keys_set_in. now left.
      * destruct (Hc n H) as (m & [K|K]); exists m; [left|right];
          apply keys_set_in; now right.
Qed.

Lemma built_inv (g : Graph) : built g -> graph_inv g.
Proof.
  induction 1 as [|g u v w _ IH].
  - unfold graph_inv. cbn. repeat split; try constructor; try easy.
  - now apply add_edge_inv.
Qed.

Lemma fold_add_one_built (items : list (edge * Z)) (g : Graph) :
  built g -> built (fold_left add_one items g).
Proof.
  revert g. induction items as [|[[s t] w] r IH]; intros g H; auto.
  cbn [fold_left]. apply IH. cbn. now constructor.
Qed.

Lemma fold_add_both_built (items : list (edge * Z)) (g : Graph) :
  built g -> built (fold_left add_both items g).
Proof.
  revert g. induction items as [|[[s t] w] r IH]; intros g H; auto.
  cbn [fold_left]. apply IH. cbn. now do 2 constructor.
Qed.

Lemma graphs_of_built (docs : list tweet) (g : Graph) :
  In g (graphs_of docs) -> built g.
Proof.
  intros [<-|[<-|[<-|[]]]].
  - apply fold_add_both_built. constructor.
  - apply fold_add_one_built. constructor.
  - apply fold_add_one_built. constructor.
Qed.

Lemma built_nodes_endpoints (g : Graph) (n : node) :
  built g ->
  (In n (nodes g)
   <-> exists m, has_edge g n m = true \/ has_edge g m n = true).
Proof.
  intros H. apply built_inv in H. destruct H as (_ & _ & _ & He & Hc).
  split.
  - intros Hin. destruct (Hc n Hin) as (m & [K|K]); exists m;
      [left|right]; now apply has_edge_keys.
  - intros (m & [K|K]); apply has_edge_keys in K; now apply He in K.
Qed.

(** X1: in each of the three graphs built from a collection no node is
    listed twice, and the nodes are exactly the endpoints of the edges: the
    builder never leaves an isolated node. *)
Theorem built_graph_nodes (docs : list tweet) (g : Graph) :
  In g (graphs_of docs) ->
  NoDup (nodes g)
  /\ forall n, In n (nodes g)
              <-> exists m, has_edge g n m = true \/ has_edge g m n = true.
Proof.
  intros H. apply graphs_of_built in H. split.
  - now destruct (built_inv g H) as (_ & Hn & _).
  - intros n. now apply built_nodes_endpoints.
Qed.

Lemma built_graph_nodes_witness :
  NoDup (nodes (mention_graph_of mention_docs))
  /\ forall n, In n (nodes (mention_graph_of mention_docs))
              <-> exists m, has_edge (mention_graph_of mention_docs) n m = true
                            \/ has_edge (mention_graph_of mention_docs) m n = true.
Proof.
  apply (built_graph_nodes mention_docs (mention_graph_of mention_docs)).
  simpl. auto.
Defined.

(** ** The user-hashtag graph and the stored weights *)

Lemma user_hashtag_graph_get (docs : list tweet) (e : edge) :
  PyDict.get (adj (user_hashtag_graph_of docs)) e
  = if count_edge e (flat_map tweet_user_hashtag_edges docs) =? 0 then None
    else Some (count_edge e (flat_map tweet_user_hashtag_edges docs)).
Proof.
  unfold user_hashtag_graph_of, build_user_hashtag_graph.
  cbn [snd init collection user_hashtag_graph]. unfold PyDict.items.
  unfold user_hashtag_edges. rewrite counter_flat, get_fold_add_one.
  - rewrite get_counter. now destruct (count_edge e _ =? 0).
  - apply NoDup_keys_fold_incr. constructor.
Qed.

Lemma count_tweet_hashtag_uses (author hashtag : string) (tw : tweet) :
  count_edge (author, hashtag) (tweet_user_hashtag_edges tw)
  = Z.of_nat (if String.eqb (author_id tw) author
              then List.length (filter (String.eqb hashtag) (hashtags tw))
              else 0%nat).
Proof.
  unfold tweet_user_hashtag_edges, count_edge.
  generalize (author_id tw) as a. intros a.
  induction (hashtags tw) as [|h r IH].
  - cbn. now destruct (String.eqb a author).
  - cbn [map filter]. unfold edge_eqb at 1. cbn [fst snd].
    rewrite (String.eqb_sym author a).
    destruct (String.eqb a author) eqn:Ea; cbn [andb].
    + destruct (String.eqb hashtag h);
        cbn [List.length]; rewrite ?Nat2Z.inj_succ; rewrite IH; reflexivity.
    + exact IH.
Qed.

Lemma hashtag_uses_count (author hashtag : node) (docs : list tweet) :
  hashtag_uses author hashtag docs
  = count_edge (author, hashtag) (flat_map tweet_user_hashtag_edges docs).
Proof.
  unfold hashtag_uses. induction docs as [|tw r IH]; [reflexivity|].
  cbn [flat_map map list_sum fold_right].
  rewrite count_edge_app, <- IH, count_tweet_hashtag_uses.
  unfold list_sum. lia.
Qed.

Lemma counted_get (d : PyDict.t) (k : edge) (c : Z) :
  0 <= c ->
  PyDict.get d k = (if c =? 0 then None else Some c) ->
  PyDict.get0 d k = c
  /\ match PyDict.get d k with Some _ => true | None => false end = (1 <=? c).
Proof.
  intros Hc H. unfold PyDict.get0. rewrite H.
  destruct (Z.eqb_spec c 0) as [->|Hne]; [now split|].
  split; auto. symmetry. apply Z.leb_le. lia.
Qed.

(** X2: in the user-hashtag graph the weight of the edge from an author to
    a hashtag is the number of times the hashtag occurs in the author's
    documents, repetitions inside one document included, and the edge is
    there exactly when that number is at least 1. *)
Theorem build_user_hashtag_graph_weight (docs : list tweet)
  (author hashtag : node) :
  weight (user_hashtag_graph_of docs) author hashtag
  = hashtag_uses author hashtag docs
  /\ has_edge (user_hashtag_graph_of docs) author hashtag
     = (1 <=? hashtag_uses author hashtag docs).
Proof.
  rewrite hashtag_uses_count. unfold weight, has_edge.
  apply counted_get; [apply count_edge_nonneg|apply user_hashtag_graph_get].
Qed.

(** X3: in each of the three graphs an edge is stored exactly when its
    weight is at least 1; no edge is stored with the weight 0 or less. *)
Theorem built_graph_weights (docs : list tweet) (g : Graph) (a b : node) :
  In g (graphs_of docs) -> has_edge g a b = (1 <=? weight g a b).
Proof.
  assert (K : forall (g : Graph) (c : Z), 0 <= c ->
            PyDict.get (adj g) (a, b) = (if c =? 0 then None else Some c) ->
            has_edge g a b = (1 <=? weight g a b)).
  { intros g0 c Hc H. destruct (counted_get _ _ _ Hc H) as [W E].
    unfold has_edge, weight. now rewrite W. }
  intros [<-|[<-|[<-|[]]]].
  - eapply K; [apply count_edge_nonneg|].
    rewrite hashtag_graph_get, hashtag_pairs_flat. apply get_counter.
  - eapply K; [apply count_edge_nonneg|]. apply mention_graph_get.
  - eapply K; [apply count_edge_nonneg|]. apply user_hashtag_graph_get.
Qed.

Lemma built_graph_weights_witness :
  has_edge (hashtag_graph_of [doc ["#a"; "#b"]]) "#a" "#b"
  = (1 <=? weight (hashtag_graph_of [doc ["#a"; "#b"]]) "#a" "#b").
Proof.
  apply (built_graph_weights [doc ["#a"; "#b"]]
           (hashtag_graph_of [doc ["#a"; "#b"]]) "#a" "#b").
  simpl. auto.
Defined.

(** ** The nodes of the co-occurrence graph *)

Lemma count_edge_pos (k : edge) (l : list edge) :
  In k l -> count_edge k l <> 0.
Proof.
  induction l as [|x r IH]; [easy|].
  rewrite count_edge_cons. pose proof (count_edge_nonneg k r) as Hr.
  intros [->|H].
  - rewrite edge_eqb_refl. lia.
  - apply IH in H. destruct (edge_eqb k x); lia.
Qed.

Lemma hashtag_graph_has_edge (docs : list tweet) (a b : node) :
  has_edge (hashtag_graph_of docs) a b = true
  <-> In (sorted_pair a b) (flat_map (fun tw => pairs_of (hashtags tw)) docs).
Proof.
  unfold has_edge. rewrite hashtag_graph_get, hashtag_pairs_flat, get_counter.
  match goal with
  | |- context [?c =? 0] => destruct (Z.eqb_spec c 0) as [E|E]
  end.
  - split; [discriminate|]. intros H. apply count_edge_pos in H. contradiction.
  - split; auto. intros _. now apply count_edge_in.
Qed.

Lemma pairs_of_partner (h : string) (l : list string) :
  In h l -> (2 <= List.length l)%nat ->
  exists m, In (sorted_pair h m) (pairs_of l).
Proof.
  induction l as [|x r IH]; [easy|].
  intros Hin Hlen. cbn [pairs_of].
  destruct Hin as [->|Hin].
  - destruct r as [|y r']; [simpl in Hlen; lia|].
    exists y. apply in_or_app. left. cbn. now left.
  - exists x. apply in_or_app. left. rewrite sorted_pair_comm.
    now apply in_map.
Qed.

Lemma pairs_of_short (l : list string) :
  pairs_of l <> [] -> (2 <= List.length l)%nat.
Proof.
  destruct l as [|x [|y r]]; cbn; try congruence. lia.
Qed.

(** X4: a hashtag is a node of the co-occurrence graph exactly when it
    occurs in some document whose hashtag list has at least two entries; a
    hashtag that only ever stands alone in its document is no node. *)
Theorem build_hashtag_graph_nodes (docs : list tweet) (h : node) :
  In h (nodes (hashtag_graph_of docs))
  <-> exists tw, In tw docs /\ In h (hashtags tw)
                 /\ (2 <= List.length (hashtags tw))%nat.
Proof.
  assert (G : built (hashtag_graph_of docs))
    by (apply (graphs_of_built docs); now left).
  rewrite (built_nodes_endpoints _ h G). clear G.
  split.
  - intros (m & H).
    assert (K : exists x y, In (sorted_pair x y)
                  (flat_map (fun tw => pairs_of (hashtags tw)) docs)
                /\ (h = x \/ h = y)).
    { destruct H as [H|H]; apply hashtag_graph_has_edge in H;
        [exists h, m|exists m, h]; auto. }
    destruct K as (x & y & K & Hh).
    apply in_flat_map in K. destruct K as (tw & Htw & K).
    exists tw. split; auto. split.
    + apply in_pairs_of in K. destruct K as (x' & y' & E & Hx & Hy).
      apply sorted_pair_eq_iff in E.
      destruct E as [[-> ->]|[-> ->]], Hh as [->| ->]; auto.
    + apply pairs_of_short. intros E. now rewrite E in K.
  - intros (tw & Htw & Hh & Hlen).
    destruct (pairs_of_partner h _ Hh Hlen) as (m & K).
    exists m. left. apply hashtag_graph_has_edge.
    apply in_flat_map. now exists tw.
Qed.

(** ** Degrees and the export *)

Lemma filter_split_perm {A} (p : A -> bool) (l : list A) :
  Permutation (filter p l ++ filter (fun x => negb (p x)) l) l.
Proof.
  induction l as [|a l IH]; simpl; auto.
  destruct (p a); simpl.
  - now constructor.
  - apply Permutation_sym, Permutation_cons_app, Permutation_sym, IH.
Qed.

Lemma filter_filter_weaker {A} (p q : A -> bool) (l : list A) :
  (forall x, p x = true -> q x = true) ->
  filter p (filter q l) = filter p l.
Proof.
  intros H. induction l as [|a l IH]; simpl; auto.
  destruct (q a) eqn:Q; simpl; rewrite IH; auto.
  destruct (p a) eqn:P; auto. apply H in P. congruence.
Qed.

(** Sorting the entries of [l] by a key into the buckets of the distinct
    keys [ns] loses nothing and repeats nothing. *)
Lemma partition_by_key {A} (key : A -> string) (ns : list string)
  (l : list A) :
  NoDup ns -> (forall e, In e l -> In (key e) ns) ->
  Permutation
    (flat_map (fun n => filter (fun e => String.eqb (key e) n) l) ns) l.
Proof.
  intros Hnd. revert l. induction Hnd as [|n ns' Hn Hnd IH]; intros l Hl.
  - destruct l as [|e l]; [constructor|]. destruct (Hl e). now left.
  - cbn [flat_map].
    set (l' := filter (fun e => negb (String.eqb (key e) n)) l).
    assert (E : flat_map (fun m => filter (fun e => String.eqb (key e) m) l) ns'
                = flat_map (fun m => filter (fun e => String.eqb (key e) m) l') ns').
    { rewrite !flat_map_concat_map. f_equal. apply map_ext_in.
      intros m Hm. unfold l'. symmetry. apply filter_filter_weaker.
      intros x Hx. apply String.eqb_eq in Hx. apply negb_true_iff.
      apply String.eqb_neq. congruence. }
    rewrite E, IH.
    + apply filter_split_perm.
    + intros e He. unfold l' in He. apply filter_In in He.
      destruct He as [He Hk]. apply negb_true_iff, String.eqb_neq in Hk.
      destruct (Hl e He); [congruence|assumption].
Qed.

Lemma sum_ints_acc (l : list Z) (a : Z) :
  fold_left Z.add l a = a + sum_ints l.
Proof.
  unfold sum_ints. revert a. induction l as [|x l IH]; intros a; simpl.
  - lia.
  - rewrite IH, (IH x). lia.
Qed.

Lemma sum_ints_cons (x : Z) (l : list Z) : sum_ints (x :: l) = x + sum_ints l.
Proof. unfold sum_ints at 1. simpl. apply sum_ints_acc. Qed.

Lemma sum_ints_buckets {A} (f : string -> list A) (ns : list string) :
  sum_ints (map (fun n => Z.of_nat (List.length (f n))) ns)
  = Z.of_nat (List.length (flat_map f ns)).
Proof.
  induction ns as [|n ns IH]; [reflexivity|].
  cbn [map flat_map]. rewrite sum_ints_cons, IH, length_app. lia.
Qed.

Lemma sum_ints_add {A} (f h : A -> Z) (l : list A) :
  sum_ints (map (fun n => f n + h n) l)
  = sum_ints (map f l) + sum_ints (map h l).
Proof.
  induction l as [|a l IH]; [reflexivity|].
  cbn [map]. rewrite !sum_ints_cons, IH. lia.
Qed.

Lemma built_degree_sums (g : Graph) :
  built g ->
  sum_ints (map snd (in_degree g)) = Z.of_nat (number_of_edges g)
  /\ sum_ints (map snd (out_degree g)) = Z.of_nat (number_of_edges g).
Proof.
  intros H. apply built_inv in H. destruct H as (_ & Hn & _ & He & _).
  unfold in_degree, out_degree, in_degree_of, out_degree_of, number_of_edges.
  rewrite !map_map. cbn [snd]. split.
  - rewrite (sum_ints_buckets
               (fun n => filter (fun e => String.eqb (snd (fst e)) n) (adj g))).
    f_equal. apply Permutation_length.
    apply (partition_by_key (fun e : edge * Z => snd (fst e))); auto.
    intros [[u v] w] Hin. apply (He u v). apply in_map_iff.
    now exists (u, v, w).
  - rewrite (sum_ints_buckets
               (fun n => filter (fun e => String.eqb (fst (fst e)) n) (adj g))).
    f_equal. apply Permutation_length.
    apply (partition_by_key (fun e : edge * Z => fst (fst e))); auto.
    intros [[u v] w] Hin. apply (He u v). apply in_map_iff.
    now exists (u, v, w).
Qed.

Lemma built_degree_total (g : Graph) :
  built g -> sum_ints (map snd (degree g)) = 2 * Z.of_nat (number_of_edges g).
Proof.
  intros H. destruct (built_degree_sums g H) as [Hi Ho].
  assert (Hi' : sum_ints (map (in_degree_of g) (nodes g))
                = Z.of_nat (number_of_edges g)).
  { rewrite <- Hi. unfold in_degree. now rewrite map_map. }
  assert (Ho' : sum_ints (map (out_degree_of g) (nodes g))
                = Z.of_nat (number_of_edges g)).
  { rewrite <- Ho. unfold out_degree. now rewrite map_map. }
  unfold degree, degree_of. rewrite map_map. cbn [snd].
  rewrite (sum_ints_add (in_degree_of g) (out_degree_of g)), Hi', Ho'. lia.
Qed.

(** X5: in each of the three graphs the in-degrees of the nodes add up to
    the number of edges, and so do the out-degrees; the degrees add up to
    twice that number. *)
Theorem built_graph_degree_sums (docs : list tweet) (g : Graph) :
  In g (graphs_of docs) ->
  sum_ints (map snd (in_degree g)) = Z.of_nat (number_of_edges g)
  /\ sum_ints (map snd (out_degree g)) = Z.of_nat (number_of_edges g)
  /\ sum_ints (map snd (degree g)) = 2 * Z.of_nat (number_of_edges g).
Proof.
  intros H. apply graphs_of_built in H.
  destruct (built_degree_sums g H) as [Hi Ho].
  split; auto. split; auto. now apply built_degree_total.
Qed.

Lemma built_graph_degree_sums_witness :
  sum_ints (map snd (in_degree (mention_graph_of mention_docs)))
  = Z.of_nat (number_of_edges (mention_graph_of mention_docs))
  /\ sum_ints (map snd (out_degree (mention_graph_of mention_docs)))
     = Z.of_nat (number_of_edges (mention_graph_of mention_docs))
  /\ sum_ints (map snd (degree (mention_graph_of mention_docs)))
     = 2 * Z.of_nat (number_of_edges (mention_graph_of mention_docs)).
Proof.
  apply (built_graph_degree_sums mention_docs (mention_graph_of mention_docs)).
  simpl. auto.
Defined.

(** X6: for each of the three graphs, when it has a node,
    [calculate_graph_metrics] reports the same average in-degree and
    average out-degree: the number of edges divided by the number of
    nodes. *)
Theorem calculate_graph_metrics_avg_degree (nx : Networkx)
  (docs : list tweet) (g : Graph) (graph_name : string) :
  In g (graphs_of docs) -> number_of_nodes g <> 0%nat ->
  metrics_get (calculate_graph_metrics nx g graph_name) "avg_in_degree"
  = Some (PyFloat (true_div (Z.of_nat (number_of_edges g)) (number_of_nodes g)))
  /\ metrics_get (calculate_graph_metrics nx g graph_name) "avg_out_degree"
     = Some (PyFloat (true_div (Z.of_nat (number_of_edges g))
                               (number_of_nodes g))).
Proof.
  intros H Hn. apply graphs_of_built in H.
  destruct (built_degree_sums g H) as [Hi Ho].
  apply built_inv in H. destruct H as (Hd & _).
  unfold calculate_graph_metrics.
  destruct (Nat.eqb_spec (number_of_nodes g) 0); [contradiction|].
  rewrite Hd, Hi, Ho. cbn [negb app metrics_get].
  assert (Li : List.length (map snd (in_degree g)) = number_of_nodes g).
  { unfold in_degree. now rewrite !length_map. }
  assert (Lo : List.length (map snd (out_degree g)) = number_of_nodes g).
  { unfold out_degree. now rewrite !length_map. }
  rewrite Li, Lo. split; reflexivity.
Qed.

Lemma calculate_graph_metrics_avg_degree_witness :
  metrics_get
    (calculate_graph_metrics nx_unconverged (mention_graph_of mention_docs)
       "User Mention Graph") "avg_in_degree"
  = Some (PyFloat (true_div
            (Z.of_nat (number_of_edges (mention_graph_of mention_docs)))
            (number_of_nodes (mention_graph_of mention_docs))))
  /\ metrics_get
       (calculate_graph_metrics nx_unconverged (mention_graph_of mention_docs)
          "User Mention Graph") "avg_out_degree"
     = Some (PyFloat (true_div
               (Z.of_nat (number_of_edges (mention_graph_of mention_docs)))
               (number_of_nodes (mention_graph_of mention_docs)))).
Proof.
  apply (calculate_graph_metrics_avg_degree nx_unconverged mention_docs
           (mention_graph_of mention_docs) "User Mention Graph").
  - simpl. auto.
  - discriminate.
Defined.

Lemma in_dict_get (d : PyDict.t) (k : edge) (w : Z) :
  NoDup (PyDict.keys d) -> (In (k, w) d <-> PyDict.get d k = Some w).
Proof.
  induction d as [|[k0 v0] r IH]; intros Hnd.
  - simpl. split; [easy|discriminate].
  - cbn in Hnd. inversion Hnd as [|? ? Hnotin Hnd']; subst.
    cbn [In PyDict.get]. destruct (edge_eqb_spec k0 k) as [->|Hne].
    + split.
      * intros [E|H]; [congruence|].
        exfalso. apply Hnotin. apply in_map_iff. now exists (k, w).
      * intros E. left. congruence.
    + rewrite <- (IH Hnd'). split; auto. intros [E|H]; [congruence|auto].
Qed.

Lemma built_edges_perm (g : Graph) : built g -> Permutation (edges g) (adj g).
Proof.
  intros H. apply built_inv in H. destruct H as (_ & Hn & _ & He & _).
  unfold edges.
  apply (partition_by_key (fun e : edge * Z => fst (fst e))); auto.
  intros [[u v] w] Hin. apply (He u v). apply in_map_iff. now exists (u, v, w).
Qed.

(** X7: for each of the three graphs, the data [save_graph_data] writes
    hold one node record per node, in node order, and one edge record per
    stored edge, with the weight of that edge; the degrees in the node
    records add up to twice the number of edge records. *)
Theorem save_graph_data_records (docs : list tweet) (g : Graph) :
  In g (graphs_of docs) ->
  map fst (fst (graph_data g)) = nodes g
  /\ (forall u v w, In (u, v, w) (snd (graph_data g))
                    <-> has_edge g u v = true /\ weight g u v = w)
  /\ List.length (snd (graph_data g)) = number_of_edges g
  /\ sum_ints (map snd (fst (graph_data g)))
     = 2 * Z.of_nat (List.length (snd (graph_data g))).
Proof.
  intros Hg. pose proof (graphs_of_built docs g Hg) as Hb.
  pose proof (built_edges_perm g Hb) as P.
  assert (L : List.length (snd (graph_data g)) = number_of_edges g).
  { cbn [graph_data snd]. rewrite length_map.
    now apply Permutation_length. }
  split; [|split; [|split]].
  - cbn [graph_data fst]. rewrite map_map. cbn [fst]. apply map_id.
  - intros u v w. cbn [graph_data snd]. rewrite in_map_iff.
    destruct (built_inv g Hb) as (_ & _ & Hk & _).
    assert (K : In (u, v, w) (adj g)
                <-> has_edge g u v = true /\ weight g u v = w).
    { rewrite (in_dict_get (adj g) (u, v) w Hk).
      unfold has_edge, weight, PyDict.get0.
      destruct (PyDict.get (adj g) (u, v)); split.
      - intros E. inversion E. auto.
      - intros [_ ->]. reflexivity.
      - discriminate.
      - intros [E _]. discriminate. }
    rewrite <- K. split.
    + intros ([[a b] c] & E & Hin). cbn in E. inversion E; subst.
      now apply (Permutation_in _ P).
    + intros Hin. exists (u, v, w). split; auto.
      now apply (Permutation_in _ (Permutation_sym P)).
  - exact L.
  - rewrite L. now apply built_degree_total.
Qed.

Lemma save_graph_data_records_witness :
  map fst (fst (graph_data (mention_graph_of mention_docs)))
  = nodes (mention_graph_of mention_docs)
  /\ (forall u v w,
        In (u, v, w) (snd (graph_data (mention_graph_of mention_docs)))
        <-> has_edge (mention_graph_of mention_docs) u v = true
            /\ weight (mention_graph_of mention_docs) u v = w)
  /\ List.length (snd (graph_data (mention_graph_of mention_docs)))
     = number_of_edges (mention_graph_of mention_docs)
  /\ sum_ints (map snd (fst (graph_data (mention_graph_of mention_docs))))
     = 2 * Z.of_nat
             (List.length (snd (graph_data (mention_graph_of mention_docs)))).
Proof.
  apply (save_graph_data_records mention_docs (mention_graph_of mention_docs)).
  simpl. auto.
Defined.

Lemma NoDup_map_injective {A B} (f : A -> B) (l : list A) :
  (forall x y, f x = f y -> x = y) -> NoDup l -> NoDup (map f l).
Proof.
  intros Hf. induction 1 as [|a l Ha Hl IH]; simpl; constructor; auto.
  rewrite in_map_iff. intros (x & E & Hx). apply Hf in E. now subst.
Qed.

Lemma length_filter_keys (p : edge -> bool) (d : PyDict.t) :
  List.length (filter (fun e => p (fst e)) d)
  = List.length (filter p (PyDict.keys d)).
Proof.
  induction d as [|[k v] r IH]; simpl; auto.
  destruct (p k); simpl; now rewrite IH.
Qed.

(** X8: in the co-occurrence graph every node has as many incoming as
    outgoing edges, so its degree, which [save_graph_data] writes, is twice
    its in-degree, by which [get_top_nodes] ranks it. *)
Theorem build_hashtag_graph_in_out (docs : list tweet) (n : node) :
  in_degree_of (hashtag_graph_of docs) n = out_degree_of (hashtag_graph_of docs) n
  /\ degree_of (hashtag_graph_of docs) n
     = 2 * in_degree_of (hashtag_graph_of docs) n.
Proof.
  assert (E : in_degree_of (hashtag_graph_of docs) n
              = out_degree_of (hashtag_graph_of docs) n).
  { unfold in_degree_of, out_degree_of. f_equal.
    set (g := hashtag_graph_of docs).
    rewrite (length_filter_keys (fun k => String.eqb (snd k) n)).
    rewrite (length_filter_keys (fun k => String.eqb (fst k) n)).
    assert (Hb : built g) by (apply (graphs_of_built docs); now left).
    destruct (built_inv g Hb) as (_ & _ & Hk & _).
    assert (S : forall a b, In (a, b) (PyDict.keys (adj g))
                            <-> In (b, a) (PyDict.keys (adj g))).
    { intros a b. rewrite <- !has_edge_keys. unfold g, has_edge.
      now rewrite !hashtag_graph_get, (sorted_pair_comm b a). }
    transitivity
      (List.length
         (map (fun k : edge => (snd k, fst k))
            (filter (fun k => String.eqb (snd k) n) (PyDict.keys (adj g)))));
      [now rewrite length_map|].
    apply Permutation_length, NoDup_Permutation.
    - apply NoDup_map_injective.
      + intros [a b] [c d] H. cbn in H. congruence.
      + now apply NoDup_filter.
    - now apply NoDup_filter.
    - intros [a b]. rewrite in_map_iff, filter_In. cbn [fst snd]. split.
      + intros ([c d] & H & Hin). apply filter_In in Hin.
        cbn in H, Hin. inversion H; subst. destruct Hin as [Hin Hn].
        split; auto. now apply S.
      + intros [Hin Hn]. exists (b, a). split; auto.
        apply filter_In. cbn. split; auto. now apply S. }
  split; auto. unfold degree_of. rewrite E. lia.
Qed.

(** ** Building twice *)

Lemma set_same (d : PyDict.t) (k : edge) (v : Z) :
  PyDict.get d k = Some v -> PyDict.set d k v = d.
Proof.
  induction d as [|[k0 v0] r IH]; simpl; [discriminate|].
  destruct (edge_eqb k0 k).
  - intros E. inversion E. reflexivity.
  - intros E. now rewrite IH.
Qed.

Lemma add_node_same (ns : list node) (n : node) :
  In n ns -> add_node ns n = ns.
Proof.
  intros H. unfold add_node. apply has_node_In in H. now rewrite H.
Qed.

Lemma add_edge_same (g : Graph) (u v : node) (w : Z) :
  PyDict.get (adj g) (u, v) = Some w -> In u (nodes g) -> In v (nodes g) ->
  add_edge g u v w = g.
Proof.
  destruct g as [d ns a]. unfold add_edge. cbn. intros Hg Hu Hv.
  rewrite (set_same a (u, v) w Hg), (add_node_same ns u Hu).
  now rewrite (add_node_same ns v Hv).
Qed.

Lemma stored_endpoints (g : Graph) (u v : node) (w : Z) :
  built g -> PyDict.get (adj g) (u, v) = Some w ->
  In u (nodes g) /\ In v (nodes g).
Proof.
  intros Hb Hg. destruct (built_inv g Hb) as (_ & _ & _ & He & _).
  apply He. apply get_in_keys. congruence.
Qed.

Lemma fold_add_one_same (items : list (edge * Z)) (g : Graph) :
  built g ->
  (forall s t w, In (s, t, w) items -> PyDict.get (adj g) (s, t) = Some w) ->
  fold_left add_one items g = g.
Proof.
  intros Hb. induction items as [|[[s t] w] r IH]; intros H; auto.
  cbn [fold_left add_one].
  assert (G : PyDict.get (adj g) (s, t) = Some w) by (apply H; now left).
  destruct (stored_endpoints g s t w Hb G).
  rewrite add_edge_same; auto. apply IH. intros s' t' w' Hin.
  apply H. now right.
Qed.

Lemma fold_add_both_same (items : list (edge * Z)) (g : Graph) :
  built g ->
  (forall s t w, In (s, t, w) items ->
     PyDict.get (adj g) (s, t) = Some w /\ PyDict.get (adj g) (t, s) = Some w) ->
  fold_left add_both items g = g.
Proof.
  intros Hb. induction items as [|[[s t] w] r IH]; intros H; auto.
  cbn [fold_left add_both].
  destruct (H s t w) as [G1 G2]; [now left|].
  destruct (stored_endpoints g s t w Hb G1).
  rewrite (add_edge_same g s t w), add_edge_same; auto.
  apply IH. intros s' t' w' Hin. apply H. now right.
Qed.

(** X9: a second call of a build method on the same builder, over the same
    collection, returns the graph of the first call: the weights are set
    again, not added up, and no node or edge is added. *)
Theorem build_twice (docs : list tweet) :
  snd (build_hashtag_graph (fst (build_hashtag_graph (init docs))))
  = hashtag_graph_of docs
  /\ snd (build_mention_graph (fst (build_mention_graph (init docs))))
     = mention_graph_of docs
  /\ snd (build_user_hashtag_graph (fst (build_user_hashtag_graph (init docs))))
     = user_hashtag_graph_of docs.
Proof.
  split; [|split].
  - unfold build_hashtag_graph at 1.
    cbn [snd fst build_hashtag_graph collection hashtag_graph init].
    fold (hashtag_graph_of docs). unfold PyDict.items.
    change (fold_left add_both (hashtag_pairs (find_ne_empty hashtags docs))
              DiGraph) with (hashtag_graph_of docs).
    apply fold_add_both_same.
    + apply (graphs_of_built docs). now left.
    + intros s t w Hin.
      apply (in_dict_get _ _ _ (hashtag_pairs_NoDup _)) in Hin.
      assert (C : String.ltb t s = false).
      { apply (hashtag_pairs_canonical docs (s, t)).
        apply get_in_keys. congruence. }
      rewrite !hashtag_graph_get, (sorted_pair_comm t s).
      rewrite (sorted_pair_fix s t C). auto.
  - unfold build_mention_graph at 1.
    cbn [snd fst build_mention_graph collection mention_graph init].
    unfold PyDict.items.
    change (fold_left add_one (mention_edges (find_ne_empty mentions docs))
              DiGraph) with (mention_graph_of docs).
    apply fold_add_one_same.
    + apply (graphs_of_built docs). right. now left.
    + intros s t w Hin.
      assert (N : NoDup (PyDict.keys
                           (mention_edges (find_ne_empty mentions docs)))).
      { unfold mention_edges. rewrite counter_flat.
        apply NoDup_keys_fold_incr. constructor. }
      apply (in_dict_get _ _ _ N) in Hin.
      rewrite mention_graph_get. rewrite mention_edges_flat, get_counter in Hin.
      exact Hin.
  - unfold build_user_hashtag_graph at 1.
    cbn [snd fst build_user_hashtag_graph collection user_hashtag_graph init].
    unfold PyDict.items.
    change (fold_left add_one (user_hashtag_edges docs) DiGraph)
      with (user_hashtag_graph_of docs).
    apply fold_add_one_same.
    + apply (graphs_of_built docs). right. right. now left.
    + intros s t w Hin.
      assert (N : NoDup (PyDict.keys (user_hashtag_edges docs))).
      { unfold user_hashtag_edges. rewrite counter_flat.
        apply NoDup_keys_fold_incr. constructor. }
      apply (in_dict_get _ _ _ N) in Hin.
      rewrite user_hashtag_graph_get.
      unfold user_hashtag_edges in Hin. rewrite counter_flat, get_counter in Hin.
      exact Hin.
Qed.

(** ** What a ranking returns *)

Lemma StronglySorted_app_cross {A} (R : A -> A -> Prop) (l1 l2 : list A) :
  StronglySorted R (l1 ++ l2) ->
  forall x y, In x l1 -> In y l2 -> R x y.
Proof.
  induction l1 as [|a l1 IH]; intros H x y Hx Hy; [easy|].
  cbn in H. inversion H as [|? ? Hs Hf]; subst.
  destruct Hx as [->|Hx].
  - rewrite Forall_forall in Hf. apply Hf. apply in_or_app. now right.
  - now apply IH.
Qed.

Lemma slice_to_firstn {A} (l : list A) (n : Z) :
  slice_to l n
  = firstn (if n <? 0 then Z.to_nat (Z.of_nat (List.length l) + n)
            else Z.to_nat n) l.
Proof. unfold slice_to. now destruct (n <? 0). Qed.

(** X10: a ranking never holds more than [top_n] entries when [top_n] is
    not negative, and it cuts the score mapping in two: the entries it
    returns and the entries it leaves out, none of which scores higher than
    a returned one. *)
Theorem get_top_nodes_best (node_scores : list (node * score)) (top_n : Z) :
  List.length (top_nodes node_scores top_n)
  = (if top_n <? 0
     then (List.length node_scores - Z.to_nat (- top_n))%nat
     else Nat.min (Z.to_nat top_n) (List.length node_scores))
  /\ exists rest,
       Permutation (top_nodes node_scores top_n ++ rest) node_scores
       /\ forall x y, In x (top_nodes node_scores top_n) -> In y rest ->
                      (snd y <= snd x)%Q.
Proof.
  unfold top_nodes. rewrite slice_to_firstn, sorted_reverse_length.
  set (k := if top_n <? 0
            then Z.to_nat (Z.of_nat (List.length node_scores) + top_n)
            else Z.to_nat top_n).
  split.
  - rewrite length_firstn, sorted_reverse_length. unfold k.
    destruct (Z.ltb_spec top_n 0); lia.
  - exists (skipn k (sorted_reverse node_scores)). split.
    + rewrite firstn_skipn. apply sorted_reverse_perm.
    + apply (StronglySorted_app_cross (fun x y => (snd y <= snd x)%Q)).
      rewrite firstn_skipn. apply sorted_reverse_descending.
Qed.

Lemma int_scores_entries (f : node -> Z) (ns : list node) (v : node)
  (s : score) :
  In (v, s) (int_scores (map (fun n => (n, f n)) ns))
  <-> In v ns /\ s = inject_Z (f v).
Proof.
  unfold int_scores. rewrite map_map. cbn [fst snd]. rewrite in_map_iff. split.
  - intros (n & E & Hn). inversion E; subst. auto.
  - intros [Hv ->]. now exists v.
Qed.

Lemma int_scores_nodes (f : node -> Z) (ns : list node) :
  map fst (int_scores (map (fun n => (n, f n)) ns)) = ns.
Proof. unfold int_scores. rewrite !map_map. cbn. apply map_id. Qed.

(** The first [k] entries of the ranking of integer scores [f] over
    distinct nodes. *)
Lemma ranked_prefix (f : node -> Z) (ns : list node) (k : nat) :
  NoDup ns ->
  let sel := firstn k (sorted_reverse (int_scores (map (fun n => (n, f n)) ns))) in
  NoDup (map fst sel)
  /\ (forall v s, In (v, s) sel -> In v ns /\ s = inject_Z (f v))
  /\ (forall n m, In n (map fst sel) -> In m ns -> ~ In m (map fst sel) ->
                  f m <= f n).
Proof.
  intros Hnd sel.
  set (l := int_scores (map (fun n => (n, f n)) ns)) in *.
  pose proof (sorted_reverse_perm l) as P.
  pose proof (firstn_skipn k (sorted_reverse l)) as S. fold sel in S.
  assert (I : forall v s, In (v, s) (sorted_reverse l)
                          -> In v ns /\ s = inject_Z (f v)).
  { intros v s H. apply (int_scores_entries f ns).
    now apply (Permutation_in _ P). }
  split; [|split].
  - assert (N : NoDup (map fst (sorted_reverse l))).
    { apply (Permutation_NoDup (Permutation_map fst (Permutation_sym P))).
      unfold l. now rewrite int_scores_nodes. }
    rewrite <- S, map_app in N. now apply NoDup_app_remove_r in N.
  - intros v s H. apply I. rewrite <- S. apply in_or_app. now left.
  - intros n m Hn Hm Hnot.
    apply in_map_iff in Hn. destruct Hn as ([n' s] & E & Hn).
    cbn in E. subst n'.
    assert (Hs : s = inject_Z (f n)).
    { apply (I n s). rewrite <- S. apply in_or_app. now left. }
    assert (Hm' : In (m, inject_Z (f m)) (skipn k (sorted_reverse l))).
    { assert (H : In (m, inject_Z (f m)) (sorted_reverse l)).
      { apply (Permutation_in _ (Permutation_sym P)).
        now apply (int_scores_entries f ns). }
      rewrite <- S in H. apply in_app_or in H. destruct H as [H|H]; auto.
      exfalso. apply Hnot. apply in_map_iff.
      now exists (m, inject_Z (f m)). }
    pose proof (sorted_reverse_descending l) as D. unfold descending in D.
    rewrite <- S in D.
    pose proof (StronglySorted_app_cross _ _ _ D _ _ Hn Hm') as C.
    cbn in C. rewrite Hs in C. rewrite Zle_Qle. exact C.
Qed.

(** X11: with the metric degree, [get_top_nodes] on any of the three graphs
    returns without calling the library and without raising; no node is
    ranked twice, every ranked node is a node of the graph and comes with
    its in-degree. *)
Theorem get_top_nodes_degree (nx : Networkx) (docs : list tweet) (g : Graph)
  (top_n : Z) :
  In g (graphs_of docs) ->
  exists l, get_top_nodes nx g "degree" top_n = Return l
            /\ NoDup (map fst l)
            /\ forall v s, In (v, s) l ->
                           In v (nodes g) /\ s = inject_Z (in_degree_of g v).
Proof.
  intros H. apply graphs_of_built, built_inv in H.
  destruct H as (Hd & Hn & _).
  unfold get_top_nodes. destruct (number_of_nodes g =? 0)%nat.
  - exists []. repeat split; try constructor; easy.
  - cbn. rewrite Hd. eexists. split; [reflexivity|].
    unfold top_nodes. rewrite slice_to_firstn. unfold in_degree.
    destruct (ranked_prefix (in_degree_of g) (nodes g)
                (if top_n <? 0
                 then Z.to_nat
                        (Z.of_nat
                           (List.length
                              (sorted_reverse
                                 (int_scores
                                    (map (fun n => (n, in_degree_of g n))
                                       (nodes g))))) + top_n)
                 else Z.to_nat top_n) Hn) as (A & B & _).
    split; assumption.
Qed.

Lemma get_top_nodes_degree_witness :
  exists l,
    get_top_nodes nx_unconverged (mention_graph_of mention_docs) "degree" 1
    = Return l
    /\ NoDup (map fst l)
    /\ forall v s, In (v, s) l ->
                   In v (nodes (mention_graph_of mention_docs))
                   /\ s = inject_Z (in_degree_of (mention_graph_of mention_docs) v).
Proof.
  apply (get_top_nodes_degree nx_unconverged mention_docs
           (mention_graph_of mention_docs) 1).
  simpl. auto.
Defined.

(** X12: for each of the three graphs and [0 <= max_nodes] below the number
    of nodes, [visualize_graph] draws exactly [max_nodes] distinct nodes of
    the graph, and no node it leaves out has a larger degree than a node it
    draws. *)
Theorem visualize_graph_top_nodes_spec (docs : list tweet) (g : Graph)
  (max_nodes : Z) :
  In g (graphs_of docs) ->
  0 <= max_nodes -> max_nodes < Z.of_nat (number_of_nodes g) ->
  exists sel,
    visualize_graph_top_nodes g max_nodes = Some sel
    /\ List.length sel = Z.to_nat max_nodes
    /\ NoDup sel
    /\ (forall n, In n sel -> In n (nodes g))
    /\ (forall n m, In n sel -> In m (nodes g) -> ~ In m sel ->
                    degree_of g m <= degree_of g n).
Proof.
  intros H H0 Hlt. apply graphs_of_built, built_inv in H.
  destruct H as (_ & Hn & _).
  unfold visualize_graph_top_nodes.
  destruct (Nat.eqb_spec (number_of_nodes g) 0) as [E|_]; [lia|].
  destruct (Z.ltb_spec max_nodes (Z.of_nat (number_of_nodes g))); [|lia].
  eexists. split; [reflexivity|].
  rewrite slice_to_firstn. destruct (Z.ltb_spec max_nodes 0); [lia|].
  unfold degree.
  destruct (ranked_prefix (degree_of g) (nodes g) (Z.to_nat max_nodes) Hn)
    as (A & B & C).
  split; [|split; [|split]]; auto.
  - rewrite length_map, length_firstn, sorted_reverse_length.
    unfold int_scores. rewrite !length_map.
    unfold number_of_nodes in Hlt. lia.
  - intros n Hin. apply in_map_iff in Hin.
    destruct Hin as ([n' s] & E & Hin). cbn in E. subst n'.
    now apply (B n s).
Qed.

Lemma visualize_graph_top_nodes_spec_witness :
  exists sel,
    visualize_graph_top_nodes (mention_graph_of mention_docs) 1 = Some sel
    /\ List.length sel = Z.to_nat 1
    /\ NoDup sel
    /\ (forall n, In n sel -> In n (nodes (mention_graph_of mention_docs)))
    /\ (forall n m, In n sel -> In m (nodes (mention_graph_of mention_docs)) ->
                    ~ In m sel ->
                    degree_of (mention_graph_of mention_docs) m
                    <= degree_of (mention_graph_of mention_docs) n).
Proof.
  apply (visualize_graph_top_nodes_spec mention_docs
           (mention_graph_of mention_docs) 1).
  - simpl. auto.
  - lia.
  - simpl. lia.
Defined.

(** ** Tag extraction *)

Lemma in_list_ascii_app (x : ascii) (a b : string) :
  In x (list_ascii_of_string (a ++ b))
  <-> In x (list_ascii_of_string a) \/ In x (list_ascii_of_string b).
Proof.
  induction a as [|c a IH]; simpl.
  - tauto.
  - rewrite IH. tauto.
Qed.

Lemma findall_tag_shape (is_word : codepoint -> bool) (tag : codepoint)
  (s : list codepoint) (cur : option (list codepoint))
  (token : list codepoint) :
  match cur with
  | Some w => forall c, In c w -> is_word c = true
  | None => True
  end ->
  In token (findall_tag is_word tag cur s) ->
  exists w, token = tag :: w /\ is_handle is_word w.
Proof.
  revert cur. induction s as [|c r IH]; intros cur Hcur Hin.
  - cbn in Hin. destruct cur as [[|c w]|]; try easy.
    destruct Hin as [<-|[]]. exists (c :: w). repeat split; easy.
  - cbn [findall_tag] in Hin.
    assert (R : In token
                  (if (c =? tag)%N
                   then findall_tag is_word tag (Some []) r
                   else findall_tag is_word tag None r) ->
                exists w, token = tag :: w /\ is_handle is_word w).
    { destruct (c =? tag)%N; apply IH; cbn; auto. }
    destruct cur as [w|]; [|now apply R].
    destruct (is_word c) eqn:W.
    + apply IH in Hin; auto. cbn. intros x Hx.
      apply in_app_or in Hx. destruct Hx as [Hx|[<-|[]]]; auto.
    + destruct w as [|c0 w]; [now apply R|].
      destruct Hin as [<-|Hin]; [|now apply R].
      exists (c0 :: w). repeat split; easy.
Qed.

Lemma str_replace_absent (c : ascii) (s : string) :
  ~ contains_char c s -> str_replace c "" s = s.
Proof.
  unfold contains_char. induction s as [|x r IH]; simpl; auto.
  intros H. destruct (Ascii.eqb_spec x c) as [->|Hne].
  - exfalso. apply H. now left.
  - rewrite IH; auto.
Qed.

Lemma byte_at (n : N) : (n < 256)%N -> ascii_of_N n = at_sign -> n = 64%N.
Proof.
  intros Hn H. apply (f_equal N_of_ascii) in H.
  now rewrite N_ascii_embedding in H.
Qed.

Lemma high_byte_at (n x : N) :
  (128 <= n)%N -> (n + x < 256)%N -> ascii_of_N (n + x) <> at_sign.
Proof.
  intros Hn Hx H. apply byte_at in H; auto. lia.
Qed.

(** No byte of the UTF-8 form of a code point is '@' unless the code point
    is. *)
Lemma utf8_char_at (c : codepoint) :
  In at_sign (utf8_char c) -> c = at_point.
Proof.
  unfold utf8_char.
  assert (M : forall a, (a mod 64 < 64)%N) by (intros a; now apply N.mod_lt).
  assert (M8 : forall a, (a mod 8 < 8)%N) by (intros a; now apply N.mod_lt).
  pose proof (M c) as M0. pose proof (M (c / 64)%N) as M1.
  pose proof (M (c / 4096)%N) as M2. pose proof (M8 (c / 262144)%N) as M3.
  destruct (N.ltb_spec c 128) as [H1|H1].
  - intros [E|[]]. apply byte_at in E; [exact E|lia].
  - destruct (N.ltb_spec c 2048) as [H2|H2].
    + assert (D : (c / 64 < 32)%N)
        by (apply N.Div0.div_lt_upper_bound; lia).
      intros [E|[E|[]]]; exfalso; revert E; apply high_byte_at; lia.
    + destruct (N.ltb_spec c 65536) as [H3|H3].
      * assert (D : (c / 4096 < 16)%N)
          by (apply N.Div0.div_lt_upper_bound; lia).
        intros [E|[E|[E|[]]]]; exfalso; revert E; apply high_byte_at; lia.
      * intros [E|[E|[E|[E|[]]]]]; exfalso; revert E;
          apply high_byte_at; lia.
Qed.

Lemma utf8_at (w : list codepoint) :
  contains_char at_sign (utf8 w) -> In at_point w.
Proof.
  unfold contains_char. induction w as [|c w IH]; cbn [utf8]; [easy|].
  rewrite in_list_ascii_app, list_ascii_of_string_of_list_ascii.
  intros [H|H]; [left; now apply utf8_char_at|right; auto].
Qed.

Lemma utf8_char_not_nil (c : codepoint) : utf8_char c <> [].
Proof.
  unfold utf8_char.
  destruct (c <? 128)%N; [easy|]. destruct (c <? 2048)%N; [easy|].
  now destruct (c <? 65536)%N.
Qed.

Lemma utf8_not_empty (w : list codepoint) : w <> [] -> utf8 w <> EmptyString.
Proof.
  destruct w as [|c w]; [easy|]. intros _. cbn [utf8].
  pose proof (utf8_char_not_nil c) as H.
  destruct (utf8_char c) as [|b l]; [easy|]. cbn. discriminate.
Qed.

Lemma utf8_tagged_at (w : list codepoint) :
  utf8 (at_point :: w) = String at_sign (utf8 w).
Proof. reflexivity. Qed.

Lemma utf8_tagged_hash (w : list codepoint) :
  utf8 (hash_point :: w) = String hash_sign (utf8 w).
Proof. reflexivity. Qed.

Lemma mention_token_clean (is_word : codepoint -> bool) (w : list codepoint) :
  is_word at_point = false -> is_handle is_word w ->
  mention_clean (utf8 (at_point :: w)) = utf8 w.
Proof.
  intros Hat [_ Hw]. rewrite utf8_tagged_at. unfold mention_clean. cbn.
  apply str_replace_absent. intros H. apply utf8_at, Hw in H. congruence.
Qed.

(** X14: as '@' is no word character, removing the '@' characters from a
    token of [extract_mentions], as [build_mention_graph] does, removes its
    first character and nothing else, whatever the code points of the
    handle: what is left is the handle, which is not empty. *)
Theorem extract_mentions_clean (lower : list codepoint -> list codepoint)
  (is_word : codepoint -> bool) (text : list codepoint) (mention : string) :
  is_word at_point = false ->
  In mention (extract_mentions lower is_word text) ->
  exists w, is_handle is_word w
            /\ mention = String at_sign (utf8 w)
            /\ mention_clean mention = utf8 w
            /\ mention_clean mention <> EmptyString.
Proof.
  intros Hat H. unfold extract_mentions in H. apply in_map_iff in H.
  destruct H as (token & <- & H).
  destruct (findall_tag_shape is_word at_point (lower text) None token I H)
    as (w & -> & Hw).
  exists w. rewrite (mention_token_clean is_word w Hat Hw).
  repeat split; try apply Hw. apply utf8_not_empty, Hw.
Qed.

Lemma extract_mentions_clean_witness :
  exists w, is_handle ascii_is_word w
            /\ "@bob_1" = String at_sign (utf8 w)
            /\ mention_clean "@bob_1" = utf8 w
            /\ mention_clean "@bob_1" <> EmptyString.
Proof.
  apply (extract_mentions_clean ascii_lower ascii_is_word
           (points "Hi @Bob_1, mail a@b.c") "@bob_1").
  - reflexivity.
  - vm_compute. auto.
Defined.

(** ** From the extracted tokens to the node ids *)

Lemma mention_graph_edge_source (docs : list tweet) (source target : node) :
  has_edge (mention_graph_of docs) source target = true ->
  exists tw mention,
    In tw docs /\ In mention (mentions tw)
    /\ source = author_id tw /\ target = mention_clean mention.
Proof.
  unfold has_edge. rewrite mention_graph_get.
  match goal with
  | |- context [?c =? 0] => destruct (Z.eqb_spec c 0) as [E|E]
  end; [discriminate|]. intros _.
  apply count_edge_in, in_flat_map in E. destruct E as (tw & Htw & K).
  unfold tweet_mention_edges in K. apply in_map_iff in K.
  destruct K as (m & E & Hm). inversion E; subst. now exists tw, m.
Qed.

(** X15: when the mention lists of the documents are what
    [extract_mentions] returns for their texts, and '@' is no word
    character, every edge of the mention graph leads to a target that is
    the handle of a mention, a sequence of word characters that is not
    empty, and the target with an '@' in front is a mention token of one of
    the source's documents. *)
Theorem build_mention_graph_handles (lower : list codepoint -> list codepoint)
  (is_word : codepoint -> bool) (docs : list tweet) (source target : node) :
  is_word at_point = false ->
  (forall tw, In tw docs ->
     exists text, mentions tw = extract_mentions lower is_word text) ->
  has_edge (mention_graph_of docs) source target = true ->
  (exists w, is_handle is_word w /\ target = utf8 w)
  /\ target <> EmptyString
  /\ exists tw, In tw docs /\ author_id tw = source
                /\ In (String at_sign target) (mentions tw).
Proof.
  intros Hat Hdocs H.
  destruct (mention_graph_edge_source docs source target H)
    as (tw & m & Htw & Hm & -> & ->).
  destruct (Hdocs tw Htw) as (text & E).
  assert (Hm' := Hm). rewrite E in Hm'. unfold extract_mentions in Hm'.
  apply in_map_iff in Hm'. destruct Hm' as (token & Et & Htok).
  destruct (findall_tag_shape is_word at_point (lower text) None token I Htok)
    as (w & -> & Hw).
  subst m. rewrite (mention_token_clean is_word w Hat Hw).
  split; [now exists w|]. split; [apply utf8_not_empty, Hw|].
  exists tw. rewrite <- utf8_tagged_at. auto.
Qed.

Lemma build_mention_graph_handles_witness :
  (exists w, is_handle ascii_is_word w /\ "bob" = utf8 w)
  /\ "bob" <> EmptyString
  /\ exists tw,
       In tw [mkTweet "u1" []
                (extract_mentions ascii_lower ascii_is_word (points "hi @Bob!"))]
       /\ author_id tw = "u1"
       /\ In (String at_sign "bob") (mentions tw).
Proof.
  apply (build_mention_graph_handles ascii_lower ascii_is_word
           [mkTweet "u1" []
              (extract_mentions ascii_lower ascii_is_word (points "hi @Bob!"))]
           "u1" "bob").
  - reflexivity.
  - intros tw [<-|[]]. now exists (points "hi @Bob!").
  - reflexivity.
Defined.

(** X16: when the hashtag lists of the documents are what
    [extract_hashtags] returns for their texts, every node of the
    co-occurrence graph is a '#' followed by a sequence of word characters
    that is not empty: hashtag nodes keep their '#'. *)
Theorem build_hashtag_graph_node_ids (lower : list codepoint -> list codepoint)
  (is_word : codepoint -> bool) (docs : list tweet) (h : node) :
  (forall tw, In tw docs ->
     exists text, hashtags tw = extract_hashtags lower is_word text) ->
  In h (nodes (hashtag_graph_of docs)) ->
  exists w, is_handle is_word w /\ h = String hash_sign (utf8 w).
Proof.
  intros Hdocs H.
  assert (G : built (hashtag_graph_of docs))
    by (apply (graphs_of_built docs); now left).
  apply (built_nodes_endpoints _ h G) in H. destruct H as (m & H).
  assert (K : exists x y, In (sorted_pair x y)
                (flat_map (fun tw => pairs_of (hashtags tw)) docs)
              /\ (h = x \/ h = y)).
  { destruct H as [H|H]; apply hashtag_graph_has_edge in H;
      [exists h, m|exists m, h]; auto. }
  destruct K as (x & y & K & Hh).
  apply in_flat_map in K. destruct K as (tw & Htw & K).
  apply in_pairs_of in K. destruct K as (x' & y' & E & Hx & Hy).
  assert (Hin : In h (hashtags tw)).
  { apply sorted_pair_eq_iff in E.
    destruct E as [[-> ->]|[-> ->]], Hh as [->| ->]; auto. }
  destruct (Hdocs tw Htw) as (text & Et). rewrite Et in Hin.
  unfold extract_hashtags in Hin. apply in_map_iff in Hin.
  destruct Hin as (token & <- & Htok).
  destruct (findall_tag_shape is_word hash_point (lower text) None token I Htok)
    as (w & -> & Hw).
  exists w. split; auto.
Qed.

Lemma build_hashtag_graph_node_ids_witness :
  exists w, is_handle ascii_is_word w /\ "#ai" = String hash_sign (utf8 w).
Proof.
  apply (build_hashtag_graph_node_ids ascii_lower ascii_is_word
           [mkTweet "u1"
              (extract_hashtags ascii_lower ascii_is_word (points "#AI #ml"))
              []] "#ai").
  - intros tw [<-|[]]. now exists (points "#AI #ml").
  - vm_compute. auto.
Defined.

(** ** The nodes and the total weight of the mention graph *)

Lemma mention_graph_has_edge (docs : list tweet) (source target : node) :
  has_edge (mention_graph_of docs) source target = true
  <-> exists tw mention,
        In tw docs /\ In mention (mentions tw)
        /\ source = author_id tw /\ target = mention_clean mention.
Proof.
  split; [apply mention_graph_edge_source|].
  intros (tw & m & Htw & Hm & -> & ->).
  unfold has_edge. rewrite mention_graph_get.
  assert (K : In (author_id tw, mention_clean m)
                (flat_map tweet_mention_edges docs)).
  { apply in_flat_map. exists tw. split; auto.
    unfold tweet_mention_edges. apply in_map_iff. now exists m. }
  apply count_edge_pos in K.
  match goal with
  | |- context [?c =? 0] => destruct (Z.eqb_spec c 0) as [E|E]
  end; [contradiction|reflexivity].
Qed.

(** X17: a node of the mention graph is the author of a document that
    mentions someone, or is what a mention token of some document names
    once its '@' characters are removed; there are no other nodes. *)
Theorem build_mention_graph_nodes (docs : list tweet) (n : node) :
  In n (nodes (mention_graph_of docs))
  <-> (exists tw, In tw docs /\ author_id tw = n /\ mentions tw <> [])
      \/ (exists tw mention, In tw docs /\ In mention (mentions tw)
                             /\ mention_clean mention = n).
Proof.
  assert (G : built (mention_graph_of docs))
    by (apply (graphs_of_built docs); right; now left).
  rewrite (built_nodes_endpoints _ n G). clear G. split.
  - intros (m & [H|H]); apply mention_graph_has_edge in H;
      destruct H as (tw & mt & Htw & Hm & E1 & E2).
    + left. exists tw. repeat split; auto.
      intros E. now rewrite E in Hm.
    + right. now exists tw, mt.
  - intros [(tw & Htw & <- & Hne)|(tw & mt & Htw & Hm & <-)].
    + destruct (mentions tw) as [|mt r] eqn:E; [congruence|].
      exists (mention_clean mt). left. apply mention_graph_has_edge.
      exists tw, mt. rewrite E. repeat split; auto. now left.
    + exists (author_id tw). right. apply mention_graph_has_edge.
      now exists tw, mt.
Qed.

Lemma set_absent (d : PyDict.t) (k : edge) (w : Z) :
  PyDict.get d k = None -> PyDict.set d k w = d ++ [(k, w)].
Proof.
  induction d as [|[k0 v0] r IH]; simpl; auto.
  destruct (edge_eqb k0 k); [discriminate|].
  intros H. now rewrite IH.
Qed.

Lemma adj_fold_add_one (items : list (edge * Z)) (g : Graph) :
  NoDup (PyDict.keys (adj g ++ items)) ->
  adj (fold_left add_one items g) = adj g ++ items.
Proof.
  revert g. induction items as [|[[s t] w] r IH]; intros g H.
  - cbn. now rewrite app_nil_r.
  - assert (F : PyDict.get (adj g) (s, t) = None).
    { destruct (PyDict.get (adj g) (s, t)) eqn:E; auto.
      exfalso. unfold PyDict.keys in H. rewrite map_app in H.
      cbn [map fst] in H. apply NoDup_remove_2 in H. apply H.
      apply in_or_app. left. apply get_in_keys. rewrite E. discriminate. }
    cbn [fold_left].
    match goal with
    | |- adj (fold_left _ _ ?x) = _ => set (g' := x)
    end.
    assert (A : adj g' = adj g ++ [(s, t, w)]).
    { unfold g'. cbn [add_one add_edge adj]. now apply set_absent. }
    rewrite IH; rewrite A, <- app_assoc; auto.
Qed.

Lemma sum_values_set (d : PyDict.t) (k : edge) (v : Z) :
  sum_ints (map snd (PyDict.set d k v))
  = sum_ints (map snd d) - PyDict.get0 d k + v.
Proof.
  unfold PyDict.get0. induction d as [|[k0 v0] r IH]; cbn [PyDict.set PyDict.get].
  - cbn [map snd]. rewrite sum_ints_cons. unfold sum_ints. cbn [fold_left]. lia.
  - destruct (edge_eqb k0 k); cbn [map snd]; rewrite !sum_ints_cons.
    + lia.
    + rewrite IH. lia.
Qed.

Lemma sum_values_counter (l : list edge) (d : PyDict.t) :
  sum_ints (map snd (fold_left PyDict.incr l d))
  = sum_ints (map snd d) + Z.of_nat (List.length l).
Proof.
  revert d. induction l as [|k l IH]; intros d.
  - cbn [fold_left List.length]. lia.
  - cbn [fold_left List.length]. rewrite IH. unfold PyDict.incr.
    rewrite sum_values_set. lia.
Qed.

(** X18: the weights of the mention graph add up to the number of mention
    tokens in the collection, and the weights of the user-hashtag graph to
    the number of hashtag occurrences: every token is counted once. *)
Theorem build_graph_total_weight (docs : list tweet) :
  sum_ints (map snd (adj (mention_graph_of docs)))
  = Z.of_nat (List.length (flat_map mentions docs))
  /\ sum_ints (map snd (adj (user_hashtag_graph_of docs)))
     = Z.of_nat (List.length (flat_map hashtags docs)).
Proof.
  assert (L : forall (A : Type) (f : tweet -> list A)
                     (h : tweet -> list edge),
            (forall tw, List.length (h tw) = List.length (f tw)) ->
            List.length (flat_map h docs) = List.length (flat_map f docs)).
  { intros A f h Hl. induction docs as [|tw r IH]; cbn; auto.
    now rewrite !length_app, IH, Hl. }
  split.
  - unfold mention_graph_of, build_mention_graph.
    cbn [snd init collection mention_graph]. unfold PyDict.items.
    rewrite adj_fold_add_one.
    + cbn [adj DiGraph PyDict.empty app].
      rewrite mention_edges_flat, sum_values_counter. cbn.
      f_equal. apply L. intros tw. unfold tweet_mention_edges.
      apply length_map.
    + cbn. unfold mention_edges. rewrite counter_flat.
      apply NoDup_keys_fold_incr. constructor.
  - unfold user_hashtag_graph_of, build_user_hashtag_graph.
    cbn [snd init collection user_hashtag_graph]. unfold PyDict.items.
    rewrite adj_fold_add_one.
    + cbn [adj DiGraph PyDict.empty app].
      unfold user_hashtag_edges. rewrite counter_flat, sum_values_counter.
      cbn. f_equal. apply L. intros tw. unfold tweet_user_hashtag_edges.
      apply length_map.
    + cbn. unfold user_hashtag_edges. rewrite counter_flat.
      apply NoDup_keys_fold_incr. constructor.
Qed.

(** ** Self-loops of the co-occurrence graph *)

Lemma filter_eqb_In (a : string) (l : list string) :
  (1 <= List.length (filter (String.eqb a) l))%nat <-> In a l.
Proof.
  induction l as [|x r IH]; cbn [filter In List.length].
  - split; [lia|easy].
  - destruct (String.eqb_spec a x) as [->|Hne]; cbn [List.length].
    + split; [now left|lia].
    + rewrite IH. split; auto. intros [E|H]; [congruence|auto].
Qed.

Lemma self_pair_twice (a : string) (l : list string) :
  In (a, a) (pairs_of l)
  <-> (2 <= List.length (filter (String.eqb a) l))%nat.
Proof.
  induction l as [|x r IH]; cbn [pairs_of filter].
  - cbn. split; [easy|lia].
  - rewrite in_app_iff, IH, in_map_iff.
    destruct (String.eqb_spec a x) as [<-|Hne]; cbn [List.length].
    + split.
      * intros [(y & E & Hy)|H]; [|lia].
        assert (y = a).
        { destruct (sorted_pair_cases a y) as [C|C]; rewrite C in E;
            inversion E; auto. }
        subst y. apply filter_eqb_In in Hy. lia.
      * intros H. left. exists a. split.
        -- apply sorted_pair_fix, ltb_irrefl.
        -- apply filter_eqb_In. lia.
    + split; auto. intros [(y & E & Hy)|H]; auto.
      exfalso. apply Hne.
      destruct (sorted_pair_cases x y) as [C|C]; rewrite C in E;
        inversion E; auto.
Qed.

(** X19: a hashtag of the co-occurrence graph carries an edge to itself
    exactly when some document holds it at two positions or more. *)
Theorem build_hashtag_graph_self_loop (docs : list tweet) (a : node) :
  has_edge (hashtag_graph_of docs) a a = true
  <-> exists tw, In tw docs
                 /\ (2 <= List.length (filter (String.eqb a) (hashtags tw)))%nat.
Proof.
  rewrite hashtag_graph_has_edge, (sorted_pair_fix a a (ltb_irrefl a)).
  rewrite in_flat_map. split; intros (tw & Htw & H); exists tw; split; auto;
    now apply self_pair_twice.
Qed.
